(** * claude-api.py: the prompt-and-dispatch helper of the GitHub workflows

    A shallow embedding of [.github/scripts/claude-api.py]: the class
    [ClaudeAssistant] (its constructor and its three operations) and the
    command line entry point [main], followed by the properties the
    specification states about them.

    Python values are modelled as the interpreter has them after
    [json.load]: [None], booleans, integers, floats, strings, lists and
    dictionaries.  A [str] is a sequence of Unicode code points, so that a
    slice [s[:n]] counts characters, not bytes.  Exceptions are explicit:
    every expression that can raise evaluates to a [result], and the operations
    that touch the outside (the environment, the file system, the console,
    the remote service) thread a [world]. *)

From Stdlib Require Import ZArith String Ascii List SpecFloat Lia.
From stdpp Require Import base option list gmap.
Import ListNotations.

Set Warnings "-register-all".

(** ** Strings *)

(** A Python [str]: its code points, in order. *)
Definition str : Type := list N.

(** An ASCII literal of the source. *)
Definition lit (s : string) : str :=
  List.map N_of_ascii (list_ascii_of_string s).
Arguments lit : simpl never.

(** U+2705 and U+274C, the two markers the script prints, and the line
    feed [print] ends its output with. *)
Definition check_mark : str := [9989%N].
Definition cross_mark : str := [10060%N].
Definition newline : str := [10%N].

(** [len(s)] *)
Definition len (s : str) : Z := Z.of_nat (length s).

(** [s[:n]]: the first [n] characters, or all but the last [-n] when [n] is
    negative. *)
Definition slice_to (n : Z) (s : str) : str :=
  if (n <? 0)%Z then take (Z.to_nat (len s + n)) s
  else take (Z.to_nat n) s.

(** What the codec [utf-8] encodes: every string without a surrogate code
    point (U+D800 to U+DFFF). *)
Definition utf8_encodable (s : str) : bool :=
  forallb (λ c, negb ((55296 <=? c) && (c <=? 57343))%N) s.

(** The text a file opened with [open(path, 'r')] yields for what the file
    holds: the line endings [\r\n] and [\r] are read as [\n]. *)
Fixpoint universal_newlines (s : str) : str :=
  match s with
  | [] => []
  | c :: rest =>
      if (c =? 13)%N then
        10%N :: match rest with
                | [] => []
                | c' :: rest' =>
                    if (c' =? 10)%N then universal_newlines rest'
                    else universal_newlines rest
                end
      else c :: universal_newlines rest
  end.

(** [p in s] on two strings: [p] occurs in [s]. *)
Fixpoint starts_with (p s : str) : bool :=
  match p, s with
  | [], _ => true
  | _ :: _, [] => false
  | a :: p', b :: s' => if N.eqb a b then starts_with p' s' else false
  end.

Fixpoint substring_of (p s : str) : bool :=
  starts_with p s ||
  match s with
  | [] => false
  | _ :: s' => substring_of p s'
  end.

(** Truthiness of an optional string ([None] and the empty string are
    falsy), and [a or b]. *)
Definition truthy (o : option str) : bool :=
  match o with
  | Some (_ :: _) => true
  | _ => false
  end.

Definition py_or (a b : option str) : option str :=
  if truthy a then a else b.

(** The string an argument holds once it has been found truthy. *)
Definition the (o : option str) : str := default [] o.

(** ** Python values *)

Inductive value : Type :=
  | VNone
  | VBool (b : bool)
  | VInt (z : Z)
  | VFloat (f : spec_float)
  | VStr (s : str)
  | VList (l : list value)
  | VDict (d : gmap str value).

(** ** Exceptions and results *)

(** The exceptions a run can meet.  [ValueError] is the one the script
    raises itself; the others come from the interpreter ([TypeError],
    [AttributeError], [IndexError], [KeyError]), from [open] ([OSError]),
    from a write of text that UTF-8 cannot encode ([UnicodeEncodeError]),
    from [json.load] ([JSONDecodeError]) and from the service client
    ([APIError]). *)
Inductive exn : Type :=
  | ValueError (msg : str)
  | TypeError
  | AttributeError
  | IndexError
  | KeyError
  | OSError (path : str)
  | UnicodeEncodeError
  | JSONDecodeError
  | APIError (msg : str).

(** What an expression of the interpreter evaluates to: a value, or an
    exception is raised. *)
Inductive result (A : Type) : Type :=
  | Ok (a : A)
  | Err (e : exn).
Arguments Ok {A} a.
Arguments Err {A} e.

#[export] Instance result_ret : MRet result := λ A a, Ok a.
#[export] Instance result_bind : MBind result := λ A B f m,
  match m with
  | Ok a => f a
  | Err e => Err e
  end.

(** ** Operations of the interpreter on values *)

(** [v == s] for a string [s]: only a string is equal to a string. *)
Definition eq_str (s : str) (v : value) : bool :=
  match v with
  | VStr s' => bool_decide (s' = s)
  | _ => false
  end.

(** [v is False] *)
Definition is_False (v : value) : bool :=
  match v with
  | VBool false => true
  | _ => false
  end.

(** [key in v] *)
Definition contains (key : str) (v : value) : result bool :=
  match v with
  | VDict d => Ok (bool_decide (is_Some (d !! key)))
  | VList l => Ok (existsb (eq_str key) l)
  | VStr s => Ok (substring_of key s)
  | _ => Err TypeError
  end.

(** [v.get(key, dflt)]: only a dictionary has the method. *)
Definition get (v : value) (key : str) (dflt : value) : result value :=
  match v with
  | VDict d => Ok (default dflt (d !! key))
  | _ => Err AttributeError
  end.

(** The items [for x in v] runs over.  A dictionary yields its keys (in the
    order of [map_to_list] here; the loops below fail alike on every
    string, so the order does not show), a string its characters. *)
Definition iter (v : value) : result (list value) :=
  match v with
  | VList l => Ok l
  | VDict d => Ok (VStr <$> (map_to_list d).*1)
  | VStr s => Ok ((λ c, VStr [c]) <$> s)
  | _ => Err TypeError
  end.

(** [v[0]].  The keys of a dictionary read from JSON are strings, so [0] is
    never one of them. *)
Definition item0 (v : value) : result value :=
  match v with
  | VList (x :: _) => Ok x
  | VList [] => Err IndexError
  | VStr (c :: _) => Ok (VStr [c])
  | VStr [] => Err IndexError
  | VDict _ => Err KeyError
  | _ => Err TypeError
  end.

(** ** The Failure List *)

(** One record [{'file': .., 'test': .., 'error': ..}]. *)
Record failure : Type := Failure {
  file : value;
  test : value;
  error : value
}.

(** The Vitest loop, lines 93-99: [failures] is the list built so far. *)
Fixpoint vitest_loop (tests : list value) (failures : list failure)
    : result (list failure) :=
  match tests with
  | [] => Ok failures
  | t :: rest =>
      status ← get t (lit "status") VNone;
      if eq_str (lit "failed") status then
        name ← get t (lit "name") VNone;
        results ← get t (lit "assertionResults") (VList [VDict ∅]);
        first ← item0 results;
        title ← get first (lit "title") (VStr (lit "Unknown"));
        message ← get t (lit "message") (VStr (lit "Unknown error"));
        vitest_loop rest
          (failures ++ [{| file := name; test := title; error := message |}])
      else vitest_loop rest failures
  end.

(** The Playwright loops, lines 102-109. *)
Fixpoint specs_loop (suite : value) (specs : list value)
    (failures : list failure) : result (list failure) :=
  match specs with
  | [] => Ok failures
  | t :: rest =>
      ok ← get t (lit "ok") VNone;
      if is_False ok then
        name ← get suite (lit "file") VNone;
        title ← get t (lit "title") VNone;
        err ← get t (lit "error") (VDict ∅);
        message ← get err (lit "message") (VStr (lit "Unknown error"));
        specs_loop suite rest
          (failures ++ [{| file := name; test := title; error := message |}])
      else specs_loop suite rest failures
  end.

Fixpoint suites_loop (suites : list value) (failures : list failure)
    : result (list failure) :=
  match suites with
  | [] => Ok failures
  | suite :: rest =>
      specs ← get suite (lit "specs") (VList []);
      items ← iter specs;
      failures' ← specs_loop suite items failures;
      suites_loop rest failures'
  end.

(** Lines 89-109 of [analyze_test_failures]: the extraction. *)
Definition extract_failures (test_report : value) : result (list failure) :=
  vitest ← contains (lit "testResults") test_report;
  if (vitest : bool) then
    tests ← get test_report (lit "testResults") (VList []);
    items ← iter tests;
    vitest_loop items []
  else
    playwright ← contains (lit "suites") test_report;
    if (playwright : bool) then
      suites ← get test_report (lit "suites") (VList []);
      items ← iter suites;
      suites_loop items []
    else Ok [].

(** ** The world a run acts on *)

(** One message of a request, and the request [client.messages.create]
    sends (with the key the client was built with). *)
Record message : Type := Message {
  role : str;
  content : str
}.

Record request : Type := Request {
  req_api_key : str;
  req_model : str;
  req_max_tokens : Z;
  req_messages : list message
}.

(** What the remote service does with a request: it answers with content
    blocks (their texts), or the client raises. *)
Inductive reply : Type :=
  | Replies (blocks : list str)
  | Fails (msg : str).

(** The environment variables, the text files by path, the paths [open]
    refuses for writing, what has been printed on the two streams, the
    requests sent to the remote service (oldest first), and the service. *)
Record world : Type := World {
  environ : gmap str str;
  files : gmap str str;
  locked : gset str;
  stdout : str;
  stderr : str;
  requests : list request;
  remote : request → reply
}.

Definition with_files (fs : gmap str str) (w : world) : world :=
  World (environ w) fs (locked w) (stdout w) (stderr w) (requests w) (remote w).
Definition with_stdout (s : str) (w : world) : world :=
  World (environ w) (files w) (locked w) s (stderr w) (requests w) (remote w).
Definition with_stderr (s : str) (w : world) : world :=
  World (environ w) (files w) (locked w) (stdout w) s (requests w) (remote w).
Definition with_requests (rs : list request) (w : world) : world :=
  World (environ w) (files w) (locked w) (stdout w) (stderr w) rs (remote w).
Definition with_remote (svc : request → reply) (w : world) : world :=
  World (environ w) (files w) (locked w) (stdout w) (stderr w) (requests w) svc.

(** How a computation ends: with a value, with an exception (a subclass of
    [Exception]), or with [SystemExit], which [except Exception] does not
    catch. *)
Inductive outcome (A : Type) : Type :=
  | Returns (a : A)
  | Raises (e : exn)
  | Exits (code : Z).
Arguments Returns {A} a.
Arguments Raises {A} e.
Arguments Exits {A} code.

(** Computations that act on the world. *)
Definition M (A : Type) : Type := world → outcome A * world.

#[export] Instance M_ret : MRet M := λ A a w, (Returns a, w).
#[export] Instance M_bind : MBind M := λ A B f m w,
  match m w with
  | (Returns a, w') => f a w'
  | (Raises e, w') => (Raises e, w')
  | (Exits c, w') => (Exits c, w')
  end.

Definition lift {A} (r : result A) : M A := λ w,
  match r with
  | Ok a => (Returns a, w)
  | Err e => (Raises e, w)
  end.
Definition raise {A} (e : exn) : M A := λ w, (Raises e, w).

(** [sys.exit(code)] *)
Definition sys_exit {A} (code : Z) : M A := λ w, (Exits code, w).

(** [try: body except Exception as e: handler(e)] *)
Definition try_except {A} (body : M A) (handler : exn → M A) : M A := λ w,
  match body w with
  | (Raises e, w') => handler e w'
  | r => r
  end.

(** [os.environ.get(name)] *)
Definition environ_get (name : str) : M (option str) := λ w,
  (Returns (environ w !! name), w).

(** [print(s)] and [print(s, file=sys.stderr)].  Standard output is taken
    to be a stream that encodes what it is given; the error stream
    replaces what it cannot encode and never refuses a text. *)
Definition print (s : str) : M unit := λ w,
  (Returns (), with_stdout (stdout w ++ s ++ newline) w).
Definition print_err (s : str) : M unit := λ w,
  (Returns (), with_stderr (stderr w ++ s ++ newline) w).

(** What [f.read()] returns for the file at [path]: [files] has what the
    file holds, the text mode of [open] reads every line ending as a line
    feed. *)
Definition file_text (w : world) (path : str) : option str :=
  universal_newlines <$> files w !! path.

(** [with open(path, 'r', encoding='utf-8') as f: f.read()] *)
Definition read_file (path : str) : M str := λ w,
  match file_text w path with
  | Some text => (Returns text, w)
  | None => (Raises (OSError path), w)
  end.

(** [with open(path, 'w', encoding='utf-8') as f: f.write(text)]: [open]
    refuses the path, or it empties the file; [f.write] then encodes the
    whole text before it writes any of it, and raises when the text cannot
    be encoded, which leaves the file empty.  (Line feeds are written as
    they are, as on a POSIX system.) *)
Definition write_file (path text : str) : M unit := λ w,
  if bool_decide (path ∈ locked w) then (Raises (OSError path), w)
  else if utf8_encodable text
  then (Returns (), with_files (<[path := text]> (files w)) w)
  else (Raises UnicodeEncodeError, with_files (<[path := []]> (files w)) w).

(** ** The libraries the script calls *)

(** [json.load] applied to the text of a file ([None]: the text is not
    JSON), [json.dumps(failures, indent=2)], and [str(e)] for the
    exceptions whose text the interpreter or a library chooses. *)
Class Library : Type := {
  json_loads : str → option value;
  json_dumps : list failure → str;
  describe : exn → str
}.

(** [str(e)] *)
Definition exn_str `{Library} (e : exn) : str :=
  match e with
  | ValueError msg => msg
  | APIError msg => msg
  | _ => describe e
  end.

(** [json.load(f)] on an open file *)
Definition json_load `{Library} (path : str) : M value :=
  text ← read_file path;
  match json_loads text with
  | Some v => mret v
  | None => raise JSONDecodeError
  end.

(** ** class ClaudeAssistant *)

Record ClaudeAssistant : Type := {
  api_key : str;
  model : str
}.

(** The message of line 26. *)
Definition missing_key_message : str :=
  lit "CLAUDE_API_KEY environment variable not set".

(** [__init__], lines 24-29. *)
Definition ClaudeAssistant_init (key : option str) : M ClaudeAssistant :=
  env ← environ_get (lit "CLAUDE_API_KEY");
  let k := py_or key env in
  if negb (truthy k) then raise (ValueError missing_key_message)
  else
    mret {| api_key := the k; model := lit "claude-3-5-sonnet-20241022" |}.

(** The request of [self.client.messages.create(model=self.model,
    max_tokens=.., messages=[{"role": "user", "content": prompt}])]. *)
Definition user_request (self : ClaudeAssistant) (max_tokens : Z)
    (prompt : str) : request :=
  {| req_api_key := api_key self;
     req_model := model self;
     req_max_tokens := max_tokens;
     req_messages := [{| role := lit "user"; content := prompt |}] |}.

(** The world after a request has been sent. *)
Definition sent (r : request) (w : world) : world :=
  with_requests (requests w ++ [r]) w.

(** [self.client.messages.create(..)]: the one network call.  The request
    has been sent whether the service answers or the client raises. *)
Definition messages_create (self : ClaudeAssistant) (max_tokens : Z)
    (prompt : str) : M (list str) := λ w,
  let r := user_request self max_tokens prompt in
  match remote w r with
  | Replies blocks => (Returns blocks, sent r w)
  | Fails msg => (Raises (APIError msg), sent r w)
  end.

(** [response.content[0].text] *)
Definition first_text (blocks : list str) : M str :=
  match blocks with
  | text :: _ => mret text
  | [] => raise IndexError
  end.

(** The prompt of [generate_spec], lines 43-68. *)
Definition generate_spec_prompt (issue_title issue_body codebase_context : str)
    : str :=
  lit "You are a technical architect for Ora Admin Portal (Next.js 15 + TypeScript + Firebase).

A feature request has been filed:

**Title**: "
  ++ issue_title
  ++ lit "

**Details**:
"
  ++ issue_body
  ++ lit "

**Codebase Context**:
"
  ++ slice_to 4000 codebase_context
  ++ lit "

Generate a detailed technical specification including:

1. **Overview**: High-level summary
2. **Architecture & Design**: Components, data flow, patterns
3. **API Contracts**: Endpoints, request/response schemas (TypeScript)
4. **Data Models**: Firestore collections/documents with TypeScript interfaces
5. **Security Considerations**: Firestore rules, permissions, validation
6. **Performance Considerations**: Optimizations, caching, scaling
7. **Testing Strategy**: Unit tests, integration tests, E2E scenarios
8. **Implementation Tasks**: Concrete checklist for developers

Format in Markdown with TypeScript code blocks for schemas.
Be specific and actionable. Reference existing patterns in the codebase.
".

Definition generate_spec (self : ClaudeAssistant)
    (issue_title issue_body codebase_context : str) : M str :=
  let prompt := generate_spec_prompt issue_title issue_body codebase_context in
  response ← messages_create self 4096 prompt;
  first_text response.

(** The fixed answer of line 112. *)
Definition no_failures_message : str :=
  check_mark ++ lit " No test failures detected".

(** The prompt of [analyze_test_failures], lines 114-129. *)
Definition analyze_prompt `{Library} (failures : list failure) : str :=
  lit "You are debugging test failures in Ora Admin Portal (Next.js 15 + TypeScript + Firebase).

**Test Failures**:
```json
"
  ++ json_dumps failures
  ++ lit "
```

For each failure, provide:

1. **Root Cause**: What's likely causing this failure?
2. **Suggested Fix**: Specific code changes to resolve it
3. **Prevention**: How to prevent similar issues in the future

Format as Markdown with code blocks for suggested fixes.
Be concise but specific. Reference TypeScript/React best practices.
".

Definition analyze_test_failures `{Library} (self : ClaudeAssistant)
    (test_report : value) : M str :=
  failures ← lift (extract_failures test_report);
  match failures with
  | [] => mret no_failures_message
  | _ :: _ =>
      let prompt := analyze_prompt failures in
      response ← messages_create self 2048 prompt;
      first_text response
  end.

(** The prompt of [review_pr], lines 150-175. *)
Definition review_pr_prompt (diff pr_description : str) : str :=
  lit "You are reviewing a Pull Request for Ora Admin Portal (Next.js 15 + TypeScript + Firebase).

**PR Description**:
"
  ++ pr_description
  ++ lit "

**Code Changes**:
```diff
"
  ++ slice_to 8000 diff
  ++ lit "
```

Review the code and provide:

1. **Summary**: High-level assessment
2. **Potential Issues**: Bugs, security concerns, performance problems
3. **Suggestions**: Improvements for code quality, readability, maintainability
4. **Security**: Any security considerations
5. **Testing**: Are there sufficient tests?

Format as Markdown. Be constructive and specific.
Focus on:
- TypeScript type safety
- React best practices
- Firebase security (Firestore rules, sensitive data)
- Error handling
- Performance implications
".

Definition review_pr (self : ClaudeAssistant) (diff pr_description : str)
    : M str :=
  let prompt := review_pr_prompt diff pr_description in
  response ← messages_create self 2048 prompt;
  first_text response.

(** ** main *)

(** The three values [argparse] accepts for the positional argument; any
    other is refused by the parser before [main] does anything. *)
Inductive command : Type := Spec | TestAnalysis | PrReview.

Record arguments : Type := Args {
  cmd : command;
  issue_title : option str;
  issue_body : option str;
  codebase_context : option str;
  test_report : option str;
  diff : option str;
  pr_description : option str;
  output : option str
}.

(** The three messages of lines 209, 221 and 231. *)
Definition spec_usage : str :=
  lit "Error: --issue-title and --issue-body required for spec generation".
Definition test_analysis_usage : str :=
  lit "Error: --test-report required for test analysis".
Definition pr_review_usage : str :=
  lit "Error: --diff and --pr-description required for PR review".

(** Lines 207-237: the branch of the selected command. *)
Definition dispatch `{Library} (assistant : ClaudeAssistant) (args : arguments)
    : M str :=
  match cmd args with
  | Spec =>
      if negb (truthy (issue_title args)) || negb (truthy (issue_body args))
      then print_err spec_usage;; sys_exit 1
      else
        context ← (if truthy (codebase_context args)
                   then read_file (the (codebase_context args))
                   else mret []);
        generate_spec assistant (the (issue_title args))
          (the (issue_body args)) context
  | TestAnalysis =>
      if negb (truthy (test_report args))
      then print_err test_analysis_usage;; sys_exit 1
      else
        report ← json_load (the (test_report args));
        analyze_test_failures assistant report
  | PrReview =>
      if negb (truthy (diff args)) || negb (truthy (pr_description args))
      then print_err pr_review_usage;; sys_exit 1
      else
        d ← read_file (the (diff args));
        review_pr assistant d (the (pr_description args))
  end.

(** Lines 240-245: the result goes to the file or to standard output. *)
Definition emit (args : arguments) (result : str) : M unit :=
  if truthy (output args) then
    write_file (the (output args)) result;;
    print (check_mark ++ lit " Output written to " ++ the (output args))
  else print result.

(** Lines 204-245: the body of the [try]. *)
Definition main_body `{Library} (args : arguments) : M unit :=
  assistant ← ClaudeAssistant_init None;
  result ← dispatch assistant args;
  emit args result.

(** Lines 247-249: the handler. *)
Definition report_error `{Library} (e : exn) : M unit :=
  print_err (cross_mark ++ lit " Error: " ++ exn_str e);;
  sys_exit 1.

Definition main `{Library} (args : arguments) : M unit :=
  try_except (main_body args) report_error.

(** The exit status of the process: 0 when [main] returns, the code of
    [sys.exit], and 1 when an exception escapes. *)
Definition exit_status {A} (o : outcome A) : Z :=
  match o with
  | Returns _ => 0
  | Exits code => code
  | Raises _ => 1
  end.

Definition run `{Library} (args : arguments) (w : world) : Z * world :=
  let '(o, w') := main args w in (exit_status o, w').

(** ** The two report shapes, in the words of the specification *)

(** A field of an object of the report ([None] when the key is absent). *)
Definition field (v : value) (key : str) : value :=
  match v with
  | VDict d => default VNone (d !! key)
  | _ => VNone
  end.

(** An entry of the result-list shape is failing when its status is the
    string [failed]. *)
Definition entry_failed (t : value) : bool :=
  match t with
  | VDict d =>
      match d !! lit "status" with
      | Some (VStr s) => bool_decide (s = lit "failed")
      | _ => false
      end
  | _ => false
  end.

(** The title of the first assertion result of an entry, [Unknown] when the
    entry has no [assertionResults] or its first one has no title. *)
Definition entry_title (t : value) : value :=
  match t with
  | VDict d =>
      match d !! lit "assertionResults" with
      | Some (VList (VDict a :: _)) => default (VStr (lit "Unknown")) (a !! lit "title")
      | _ => VStr (lit "Unknown")
      end
  | _ => VStr (lit "Unknown")
  end.

Definition entry_message (t : value) : value :=
  match t with
  | VDict d => default (VStr (lit "Unknown error")) (d !! lit "message")
  | _ => VStr (lit "Unknown error")
  end.

Definition entry_record (t : value) : failure :=
  {| file := field t (lit "name");
     test := entry_title t;
     error := entry_message t |}.

(** One record per failing entry, in the order of the report. *)
Definition vitest_failures (tests : list value) : list failure :=
  entry_record <$> List.filter entry_failed tests.

(** An entry the loop can read: an object whose [assertionResults], when it
    is failing, is absent or a list that starts with an object. *)
Definition entry_readable (t : value) : bool :=
  match t with
  | VDict d =>
      negb (entry_failed t) ||
      match d !! lit "assertionResults" with
      | None => true
      | Some (VList (VDict _ :: _)) => true
      | Some _ => false
      end
  | _ => false
  end.

(** A spec of the suite/spec shape is failing when its [ok] field is
    present and is [false] itself. *)
Definition spec_failed (t : value) : bool :=
  match t with
  | VDict d =>
      match d !! lit "ok" with
      | Some (VBool false) => true
      | _ => false
      end
  | _ => false
  end.

(** The message of the error of a spec, [Unknown error] when the spec has
    no [error] or the error has no [message]. *)
Definition spec_message (t : value) : value :=
  match t with
  | VDict d =>
      match d !! lit "error" with
      | Some (VDict e) => default (VStr (lit "Unknown error")) (e !! lit "message")
      | _ => VStr (lit "Unknown error")
      end
  | _ => VStr (lit "Unknown error")
  end.

Definition spec_record (suite t : value) : failure :=
  {| file := field suite (lit "file");
     test := field t (lit "title");
     error := spec_message t |}.

(** The specs of a suite (none when the suite has no [specs]). *)
Definition suite_specs (suite : value) : list value :=
  match suite with
  | VDict d =>
      match d !! lit "specs" with
      | Some (VList l) => l
      | _ => []
      end
  | _ => []
  end.

Definition playwright_failures (suites : list value) : list failure :=
  suite ← suites;
  spec_record suite <$> List.filter spec_failed (suite_specs suite).

(** A spec the loop can read: an object whose [error], when the spec is
    failing, is absent or an object; and a suite it can read: an object
    whose [specs] is absent or a list of such specs. *)
Definition spec_readable (t : value) : bool :=
  match t with
  | VDict d =>
      negb (spec_failed t) ||
      match d !! lit "error" with
      | None => true
      | Some (VDict _) => true
      | Some _ => false
      end
  | _ => false
  end.

Definition suite_readable (suite : value) : bool :=
  match suite with
  | VDict d =>
      match d !! lit "specs" with
      | None => true
      | Some (VList l) => forallb spec_readable l
      | Some _ => false
      end
  | _ => false
  end.


Definition is_dict (v : value) : bool :=
  match v with
  | VDict _ => true
  | _ => false
  end.

(** A report without a failing entry, in the three forms the specification
    names: a result list whose entries are objects none of which is
    failing, suites whose specs are objects none of which is failing, and
    an object of neither shape. *)
Inductive no_failing_entries : value → Prop :=
  | clean_result_list (d : gmap str value) (tests : list value) :
      d !! lit "testResults" = Some (VList tests) →
      forallb is_dict tests = true →
      forallb (λ t, negb (entry_failed t)) tests = true →
      no_failing_entries (VDict d)
  | clean_suites (d : gmap str value) (suites : list value) :
      d !! lit "testResults" = None →
      d !! lit "suites" = Some (VList suites) →
      forallb suite_readable suites = true →
      forallb (λ suite, forallb (λ t, negb (spec_failed t)) (suite_specs suite))
        suites = true →
      no_failing_entries (VDict d)
  | unrecognized (d : gmap str value) :
      d !! lit "testResults" = None →
      d !! lit "suites" = None →
      no_failing_entries (VDict d).

(** ** What the specification says of a run *)

(** What an operation makes of the reply of the service: the text of its
    first content block. *)
Definition answer (r : reply) : outcome str :=
  match r with
  | Replies (text :: _) => Returns text
  | Replies [] => Raises IndexError
  | Fails msg => Raises (APIError msg)
  end.

(** A credential is available when the variable is set to a non-empty
    string. *)
Definition key_available (w : world) : bool :=
  truthy (environ w !! lit "CLAUDE_API_KEY").

(** The world after a line has been printed on the error stream. *)
Definition after_stderr_line (line : str) (w : world) : world :=
  with_stderr (stderr w ++ line ++ newline) w.

(** The diagnostic of the top-level handler: the failure marker, then the
    text of the exception. *)
Definition diagnostic `{Library} (e : exn) : str :=
  cross_mark ++ lit " Error: " ++ exn_str e.

(** A run that ends the way the handler of line 247 ends one: status 1 and
    one more line on the error stream, which starts with the failure
    marker. *)
Definition reported_with_marker (before : world) (result : Z * world) : Prop :=
  result.1 = 1%Z ∧
  ∃ text, stderr result.2 = stderr before ++ cross_mark ++ text ++ newline.

(** A run of [spec] that fails with the MissingInput condition: status 1,
    the message of line 209 on the error stream, and nothing else. *)
Definition missing_input_failure (before : world) (result : Z * world) : Prop :=
  result = (1%Z, after_stderr_line spec_usage before).

(** ** Inputs for the examples *)

(** A library good enough to run the examples: it reads the JSON text [{}]
    only, renders a Failure List as one line per record, and gives every
    exception a short text. *)
Definition example_library : Library := {|
  json_loads := λ text,
    if bool_decide (text = lit "{}") then Some (VDict ∅) else None;
  json_dumps := λ failures,
    mjoin ((λ _ : failure, lit "{..}" ++ newline) <$> failures);
  describe := λ e,
    match e with
    | TypeError => lit "TypeError"
    | AttributeError => lit "AttributeError"
    | IndexError => lit "list index out of range"
    | KeyError => lit "0"
    | OSError path => lit "No such file or directory: " ++ path
    | UnicodeEncodeError => lit "surrogates not allowed"
    | JSONDecodeError => lit "Expecting value"
    | ValueError msg | APIError msg => msg
    end
|}.

(** A service that answers every request with the text [OK]. *)
Definition ok_service : request → reply := λ _, Replies [lit "OK"].

Definition example_world (key : option str) : world := {|
  environ := from_option (λ k, {[ lit "CLAUDE_API_KEY" := k ]}) ∅ key;
  files := <[lit "spec.md" := lit "old"]> {[ lit "report.json" := lit "{}" ]};
  locked := ∅;
  stdout := [];
  stderr := [];
  requests := [];
  remote := ok_service
|}.

Definition spec_arguments (title body out : option str) : arguments := {|
  cmd := Spec;
  issue_title := title;
  issue_body := body;
  codebase_context := None;
  test_report := None;
  diff := None;
  pr_description := None;
  output := out
|}.

Definition test_analysis_arguments (report : option str) : arguments := {|
  cmd := TestAnalysis;
  issue_title := None;
  issue_body := None;
  codebase_context := None;
  test_report := report;
  diff := None;
  pr_description := None;
  output := None
|}.

(** A Vitest report of one file that failed before any test ran: the
    reporter lists the file as failed, with its message and no assertion
    result. *)
Definition collection_error_entry : value :=
  VDict (<[lit "name" := VStr (lit "src/app.test.ts")]>
         (<[lit "status" := VStr (lit "failed")]>
         (<[lit "message" := VStr (lit "Cannot find module")]>
         (<[lit "assertionResults" := VList []]> ∅)))).

Definition collection_error_report : value :=
  VDict {[ lit "testResults" := VList [collection_error_entry] ]}.

(** A Playwright report: one suite with a passing spec, a failing spec
    without an error, a spec without [ok], and a failing spec with an
    error message. *)
Definition playwright_suites : list value :=
  [VDict (<[lit "file" := VStr (lit "login.spec.ts")]>
          (<[lit "specs" := VList [
               VDict (<[lit "title" := VStr (lit "opens")]>
                      (<[lit "ok" := VBool true]> ∅));
               VDict (<[lit "title" := VStr (lit "logs in")]>
                      (<[lit "ok" := VBool false]> ∅));
               VDict (<[lit "title" := VStr (lit "skipped")]> ∅);
               VDict (<[lit "title" := VStr (lit "logs out")]>
                      (<[lit "ok" := VBool false]>
                      (<[lit "error" := VDict
                           {[ lit "message" := VStr (lit "timeout") ]}]> ∅)))
             ]]> ∅))].

Definition playwright_report : gmap str value :=
  {[ lit "suites" := VList playwright_suites ]}.

(** A service that is down. *)
Definition failing_service : request → reply := λ _, Fails (lit "overloaded").

(** A credential for the examples. *)
Definition example_key : str := lit "sk-example".

(** ** Further definitions: the pieces of a run *)

(** The assistant [main] builds when a key is available: line 204 passes
    no key, so the key is the value of [CLAUDE_API_KEY]. *)
Definition environment_assistant (w : world) : ClaudeAssistant :=
  {| api_key := the (environ w !! lit "CLAUDE_API_KEY");
     model := lit "claude-3-5-sonnet-20241022" |}.

(** The [max_tokens] of the request of each command (lines 72, 133, 179). *)
Definition command_max_tokens (c : command) : Z :=
  match c with
  | Spec => 4096
  | TestAnalysis | PrReview => 2048
  end.

(** Lines 240-249 on a result the operation has returned: the output step
    under the handler, and the exit status. *)
Definition finish `{Library} (args : arguments) (result : str) (w : world)
    : Z * world :=
  let '(o, w') := try_except (emit args result) report_error w in
  (exit_status o, w').

(** The confirmation of line 243. *)
Definition confirmation (path : str) : str :=
  check_mark ++ lit " Output written to " ++ path.

(** More inputs for the examples. *)
Definition pr_review_arguments (d description out : option str) : arguments := {|
  cmd := PrReview;
  issue_title := None;
  issue_body := None;
  codebase_context := None;
  test_report := None;
  diff := d;
  pr_description := description;
  output := out
|}.

(** A world with a key, a diff and a report, in which [out/] cannot be
    written. *)
Definition review_world (svc : request → reply) : world := {|
  environ := {[ lit "CLAUDE_API_KEY" := example_key ]};
  files := <[lit "change.diff" := lit "+ new line"]>
             {[ lit "report.json" := lit "{}" ]};
  locked := {[ lit "out/review.md" ]};
  stdout := [];
  stderr := [];
  requests := [];
  remote := svc
|}.

(** A service whose answer ends in a lone surrogate. *)
Definition surrogate_service : request → reply :=
  λ _, Replies [lit "ab" ++ [55296%N]].

(** A service that answers without a content block. *)
Definition mute_service : request → reply := λ _, Replies [].

(** A result list with a passing entry, a failing entry without assertion
    results and a failing entry with one. *)
Definition vitest_tests : list value :=
  [VDict (<[lit "name" := VStr (lit "a.test.ts")]>
          (<[lit "status" := VStr (lit "passed")]>
          (<[lit "assertionResults" := VNone]> ∅)));
   VDict (<[lit "name" := VStr (lit "b.test.ts")]>
          (<[lit "status" := VStr (lit "failed")]> ∅));
   VDict (<[lit "name" := VStr (lit "c.test.ts")]>
          (<[lit "status" := VStr (lit "failed")]>
          (<[lit "message" := VStr (lit "expected 1")]>
          (<[lit "assertionResults" :=
               VList [VDict {[ lit "title" := VStr (lit "adds") ]};
                      VDict {[ lit "title" := VStr (lit "subtracts") ]}]]> ∅))))].

(** * Properties *)

(** The two text functions on small inputs: the line endings of
    [a\r\nb\rc], and a lone surrogate among encodable characters. *)
Example universal_newlines_example :
  universal_newlines [97; 13; 10; 98; 13; 99]%N = [97; 10; 98; 10; 99]%N.
Proof. reflexivity. Qed.

Example utf8_encodable_example :
  utf8_encodable (lit "ab" ++ [55296%N]) = false ∧
  utf8_encodable (check_mark ++ lit " ok" ++ [128512%N]) = true.
Proof. by vm_compute. Qed.

(** ** The extraction of the Failure List *)

(** One turn of the Vitest loop on an entry it can read. *)
Lemma vitest_loop_step (t : value) (tests : list value) (acc : list failure) :
  entry_readable t = true →
  vitest_loop (t :: tests) acc =
  vitest_loop tests (if entry_failed t then acc ++ [entry_record t] else acc).
Proof.
  destruct t as [| | | | | |d]; try discriminate.
  unfold entry_record, entry_title, entry_message. simpl.
  destruct (d !! lit "status") as [[| | | |s| |]|]; simpl; try done.
  case_bool_decide; simpl; [|done].
  by destruct (d !! lit "assertionResults") as [[| | | | |[|[]]|]|].
Qed.

Lemma vitest_loop_readable (tests : list value) (acc : list failure) :
  forallb entry_readable tests = true →
  vitest_loop tests acc = Ok (acc ++ vitest_failures tests).
Proof.
  unfold vitest_failures.
  revert acc. induction tests as [|t tests IH]; intros acc Hall.
  - simpl. by rewrite app_nil_r.
  - apply andb_prop in Hall as [Ht Hall].
    rewrite vitest_loop_step by done. rewrite (IH _ Hall). simpl.
    destruct (entry_failed t); [|done].
    by rewrite <- app_assoc.
Qed.

(** One turn of the inner Playwright loop on a spec it can read. *)
Lemma specs_loop_step (d : gmap str value) (t : value) (specs : list value)
    (acc : list failure) :
  spec_readable t = true →
  specs_loop (VDict d) (t :: specs) acc =
  specs_loop (VDict d) specs
    (if spec_failed t then acc ++ [spec_record (VDict d) t] else acc).
Proof.
  destruct t as [| | | | | |s]; try discriminate.
  unfold spec_record, spec_message. simpl.
  destruct (s !! lit "ok") as [[|[]| | | | |]|]; simpl; try done.
  by destruct (s !! lit "error") as [[| | | | | |e]|].
Qed.

Lemma specs_loop_readable (d : gmap str value) (specs : list value)
    (acc : list failure) :
  forallb spec_readable specs = true →
  specs_loop (VDict d) specs acc =
  Ok (acc ++ (spec_record (VDict d) <$> List.filter spec_failed specs)).
Proof.
  revert acc. induction specs as [|t specs IH]; intros acc Hall.
  - simpl. by rewrite app_nil_r.
  - apply andb_prop in Hall as [Ht Hall].
    rewrite specs_loop_step by done. rewrite (IH _ Hall). simpl.
    destruct (spec_failed t); [|done].
    by rewrite <- app_assoc.
Qed.

Lemma suites_loop_readable (suites : list value) (acc : list failure) :
  forallb suite_readable suites = true →
  suites_loop suites acc = Ok (acc ++ playwright_failures suites).
Proof.
  unfold playwright_failures.
  revert acc. induction suites as [|suite suites IH]; intros acc Hall.
  - simpl. by rewrite app_nil_r.
  - apply andb_prop in Hall as [Hs Hall].
    destruct suite as [| | | | | |d]; try discriminate.
    cbn [suites_loop get]. simpl in Hs.
    change (mbind ?f (Ok ?a)) with (f a).
    destruct (d !! lit "specs") as [[| | | | |l|]|] eqn:Hspecs;
      try discriminate; simpl.
    + rewrite specs_loop_readable by done. simpl.
      rewrite (IH _ Hall). rewrite Hspecs. by rewrite <- app_assoc.
    + rewrite (IH _ Hall). rewrite Hspecs. simpl. done.
Qed.

(** The loops over the keys of a dictionary, or over the characters of a
    string: the first item has no [get], whichever it is. *)
Lemma vitest_loop_strings (keys : list str) (acc : list failure) :
  vitest_loop (VStr <$> keys) acc =
  match keys with
  | [] => Ok acc
  | _ :: _ => Err AttributeError
  end.
Proof. by destruct keys. Qed.

Lemma specs_loop_strings (suite : value) (keys : list str) (acc : list failure) :
  specs_loop suite (VStr <$> keys) acc =
  match keys with
  | [] => Ok acc
  | _ :: _ => Err AttributeError
  end.
Proof. by destruct keys. Qed.

Lemma suites_loop_strings (keys : list str) (acc : list failure) :
  suites_loop (VStr <$> keys) acc =
  match keys with
  | [] => Ok acc
  | _ :: _ => Err AttributeError
  end.
Proof. by destruct keys. Qed.

(** The extraction on a report of the result-list shape whose entries can
    all be read: one record per failing entry, in the order of the
    report. *)
Lemma vitest_extraction (d : gmap str value) (tests : list value) :
  d !! lit "testResults" = Some (VList tests) →
  forallb entry_readable tests = true →
  extract_failures (VDict d) = Ok (vitest_failures tests).
Proof.
  intros Hd Hall. unfold extract_failures. simpl. rewrite Hd. simpl.
  by apply vitest_loop_readable.
Qed.

(** The extraction on a report of the suite/spec shape: [testResults] wins
    when both keys are present, so it has to be absent. *)
Lemma playwright_extraction (d : gmap str value) (suites : list value) :
  d !! lit "testResults" = None →
  d !! lit "suites" = Some (VList suites) →
  forallb suite_readable suites = true →
  extract_failures (VDict d) = Ok (playwright_failures suites).
Proof.
  intros Hv Hd Hall. unfold extract_failures. simpl. rewrite Hv, Hd. simpl.
  by apply suites_loop_readable.
Qed.

(** The extraction on an object of neither shape. *)
Lemma unrecognized_extraction (d : gmap str value) :
  d !! lit "testResults" = None →
  d !! lit "suites" = None →
  extract_failures (VDict d) = Ok [].
Proof.
  intros Hv Hd. unfold extract_failures. simpl. by rewrite Hv, Hd.
Qed.

Lemma filter_none {A} (f : A → bool) (l : list A) :
  forallb (λ x, negb (f x)) l = true → List.filter f l = [].
Proof.
  induction l as [|x l IH]; simpl; [done|].
  intros [Hx Hl]%andb_prop. destruct (f x); [done|]. by apply IH.
Qed.

Lemma clean_entries_readable (tests : list value) :
  forallb is_dict tests = true →
  forallb (λ t, negb (entry_failed t)) tests = true →
  forallb entry_readable tests = true.
Proof.
  rewrite !forallb_forall. intros Hdict Hnone t Ht.
  specialize (Hdict t Ht). specialize (Hnone t Ht).
  destruct t; try discriminate. unfold entry_readable.
  by rewrite Hnone.
Qed.

Lemma clean_suites_no_failures (suites : list value) :
  forallb (λ suite, forallb (λ t, negb (spec_failed t)) (suite_specs suite))
    suites = true →
  playwright_failures suites = [].
Proof.
  unfold playwright_failures.
  induction suites as [|suite suites IH]; simpl; [done|].
  intros [Hs Hall]%andb_prop.
  rewrite (filter_none _ _ Hs). simpl. by apply IH.
Qed.

Lemma no_failing_entries_extraction (report : value) :
  no_failing_entries report → extract_failures report = Ok [].
Proof.
  destruct 1 as [d tests Hd Hdict Hnone|d suites Hv Hd Hread Hnone|d Hv Hd].
  - rewrite (vitest_extraction d tests Hd (clean_entries_readable _ Hdict Hnone)).
    unfold vitest_failures. by rewrite (filter_none _ _ Hnone).
  - rewrite (playwright_extraction d suites Hv Hd Hread).
    by rewrite clean_suites_no_failures.
  - by apply unrecognized_extraction.
Qed.

(** Reports that are not objects lie outside the annotation
    [test_report: Dict].  For the record: [in] on a list looks for the key
    among the items, and [None] has no [in] at all. *)
Example non_object_reports :
  extract_failures (VList []) = Ok [] ∧
  extract_failures (VList [VStr (lit "suites")]) = Err AttributeError ∧
  extract_failures VNone = Err TypeError.
Proof. by vm_compute. Qed.

(** C2, at the report of a file that failed before any of its tests ran.
    The entry is failing, so the claim asks for one record of it; the loop
    reads the first assertion result of the entry, [assertionResults] is
    the empty list (the default [[{}]] of line 97 only stands in for a
    missing key), and the extraction ends with [IndexError] instead of a
    Failure List. *)
Theorem collection_error_breaks_extraction :
  entry_failed collection_error_entry = true ∧
  extract_failures collection_error_report = Err IndexError.
Proof. by vm_compute. Qed.

(** C9. On a report of the suite/spec shape the Failure List holds, suite
    after suite and spec after spec, one record for each spec whose [ok]
    field is present and is [false] itself, and for no other spec; the
    record takes its file from the enclosing suite, its test from the
    title of the spec, and its error from the message of the error of the
    spec, [Unknown error] when the spec has no error or the error no
    message. *)
Theorem playwright_failures_extracted (d : gmap str value) (suites : list value) :
  d !! lit "testResults" = None →
  d !! lit "suites" = Some (VList suites) →
  forallb suite_readable suites = true →
  extract_failures (VDict d) =
    Ok (suite ← suites;
        spec_record suite <$> List.filter spec_failed (suite_specs suite)) ∧
  (∀ s : gmap str value,
     spec_failed (VDict s) = true ↔ s !! lit "ok" = Some (VBool false)) ∧
  (∀ suite s : gmap str value,
     file (spec_record (VDict suite) (VDict s)) =
       default VNone (suite !! lit "file") ∧
     test (spec_record (VDict suite) (VDict s)) =
       default VNone (s !! lit "title") ∧
     (s !! lit "error" = None →
      error (spec_record (VDict suite) (VDict s)) = VStr (lit "Unknown error")) ∧
     (∀ e : gmap str value, s !! lit "error" = Some (VDict e) →
      error (spec_record (VDict suite) (VDict s)) =
        default (VStr (lit "Unknown error")) (e !! lit "message"))).
Proof.
  intros Hv Hd Hall. split; [by apply playwright_extraction|]. split.
  - intros s. unfold spec_failed.
    destruct (s !! lit "ok") as [[|[]| | | | |]|]; split; by intros.
  - intros suite s. unfold spec_record, spec_message. cbn [file test error field].
    repeat split.
    + by intros ->.
    + by intros e ->.
Qed.

(** The report [playwright_report]: of its four specs, the two whose [ok]
    is [false] are recorded, in their order. *)
Lemma playwright_failures_extracted_witness :
  extract_failures (VDict playwright_report) =
  Ok [ {| file := VStr (lit "login.spec.ts"); test := VStr (lit "logs in");
          error := VStr (lit "Unknown error") |};
       {| file := VStr (lit "login.spec.ts"); test := VStr (lit "logs out");
          error := VStr (lit "timeout") |} ].
Proof.
  refine (eq_trans (proj1 (playwright_failures_extracted playwright_report
    playwright_suites _ _ _)) _); by vm_compute.
Defined.

(** ** The prompts *)

Lemma slice_to_facts (n : Z) (text : str) :
  (0 ≤ n)%Z →
  slice_to n text `prefix_of` text ∧
  (len (slice_to n text) ≤ n)%Z ∧
  ((len text ≤ n)%Z → slice_to n text = text) ∧
  ((n < len text)%Z → len (slice_to n text) = n).
Proof.
  intros Hn. unfold slice_to, len.
  destruct (Z.ltb_spec n 0) as [|_]; [lia|].
  repeat split.
  - apply prefix_take.
  - rewrite length_take. lia.
  - intros Hle. apply take_ge. lia.
  - intros Hlt. rewrite length_take. lia.
Qed.

Lemma bind_equation {A B} (m : M A) (f : A → M B) (w : world) :
  (m ≫= f) w =
  match m w with
  | (Returns a, w') => f a w'
  | (Raises e, w') => (Raises e, w')
  | (Exits c, w') => (Exits c, w')
  end.
Proof. done. Qed.

(** An operation that asks the service sends its request and makes of the
    reply what [answer] says. *)
Lemma ask_equation (self : ClaudeAssistant) (n : Z) (prompt : str) (w : world) :
  (messages_create self n prompt ≫= first_text) w =
  (answer (remote w (user_request self n prompt)),
   sent (user_request self n prompt) w).
Proof.
  rewrite bind_equation. unfold messages_create, first_text.
  by destruct (remote w _) as [[|text blocks]|msg].
Qed.

Lemma generate_spec_equation self issue_title issue_body codebase_context w :
  let r := user_request self 4096
             (generate_spec_prompt issue_title issue_body codebase_context) in
  generate_spec self issue_title issue_body codebase_context w =
  (answer (remote w r), sent r w).
Proof. apply ask_equation. Qed.

Lemma review_pr_equation self diff pr_description w :
  let r := user_request self 2048 (review_pr_prompt diff pr_description) in
  review_pr self diff pr_description w = (answer (remote w r), sent r w).
Proof. apply ask_equation. Qed.

(** C3. The codebase context enters the prompt of [generate_spec], and the
    diff the prompt of [review_pr], at one fixed place and only through
    its slice [[:4000]], respectively [[:8000]]; that prompt is the content
    of the request that is sent.  The slice is a prefix of the text of at
    most 4000 (8000) characters, it is the text itself when the text is
    within the budget, and it has exactly 8000 characters when the diff is
    longer than that. *)
Theorem truncation_before_embedding :
  (∀ issue_title issue_body, ∃ before after, ∀ codebase_context,
     generate_spec_prompt issue_title issue_body codebase_context =
     before ++ slice_to 4000 codebase_context ++ after) ∧
  (∀ pr_description, ∃ before after, ∀ diff,
     review_pr_prompt diff pr_description =
     before ++ slice_to 8000 diff ++ after) ∧
  (∀ self issue_title issue_body codebase_context w,
     requests (generate_spec self issue_title issue_body codebase_context w).2 =
     requests w ++
       [user_request self 4096
          (generate_spec_prompt issue_title issue_body codebase_context)]) ∧
  (∀ self diff pr_description w,
     requests (review_pr self diff pr_description w).2 =
     requests w ++ [user_request self 2048 (review_pr_prompt diff pr_description)]) ∧
  (∀ text : str,
     slice_to 4000 text `prefix_of` text ∧
     slice_to 8000 text `prefix_of` text ∧
     (len (slice_to 4000 text) ≤ 4000)%Z ∧
     (len (slice_to 8000 text) ≤ 8000)%Z ∧
     ((len text ≤ 4000)%Z → slice_to 4000 text = text) ∧
     ((len text ≤ 8000)%Z → slice_to 8000 text = text) ∧
     ((8000 < len text)%Z → len (slice_to 8000 text) = 8000%Z)).
Proof.
  split; [|split; [|split; [|split]]].
  - intros issue_title issue_body. unfold generate_spec_prompt.
    set (a := lit _) at 1. set (b := lit _) at 1. set (c := lit _) at 1.
    set (d := lit _) at 1.
    exists (a ++ issue_title ++ b ++ issue_body ++ c), d.
    intros codebase_context. rewrite <- !app_assoc. reflexivity.
  - intros pr_description. unfold review_pr_prompt.
    set (a := lit _) at 1. set (b := lit _) at 1. set (c := lit _) at 1.
    exists (a ++ pr_description ++ b), c.
    intros diff. rewrite <- !app_assoc. reflexivity.
  - intros. by rewrite generate_spec_equation.
  - intros. by rewrite review_pr_equation.
  - intros text.
    destruct (slice_to_facts 4000 text) as (? & ? & ? & ?); [lia|].
    destruct (slice_to_facts 8000 text) as (? & ? & ? & ?); [lia|].
    repeat split; assumption.
Qed.

(** A diff of 8001 characters is cut to 8000; a short context is kept. *)
Lemma truncation_before_embedding_witness :
  len (slice_to 8000 (replicate (Z.to_nat 8001) 120%N)) = 8000%Z ∧
  slice_to 4000 (lit "src/app") = lit "src/app".
Proof.
  destruct truncation_before_embedding as (_ & _ & _ & _ & Hcut). split.
  - apply (Hcut (replicate (Z.to_nat 8001) 120%N)). by vm_compute.
  - apply (Hcut (lit "src/app")). by vm_compute.
Defined.

(** ** The operations and the entry point *)

Section runs.
Context `{Library}.

Lemma analyze_equation self test_report w :
  analyze_test_failures self test_report w =
  match extract_failures test_report with
  | Err e => (Raises e, w)
  | Ok [] => (Returns no_failures_message, w)
  | Ok failures =>
      let r := user_request self 2048 (analyze_prompt failures) in
      (answer (remote w r), sent r w)
  end.
Proof.
  unfold analyze_test_failures. rewrite bind_equation. unfold lift.
  destruct (extract_failures test_report) as [[|f fs]|e]; try done.
  apply ask_equation.
Qed.

(** C1. When the extraction yields no failing entry, [analyze_test_failures]
    returns the fixed success string and leaves the world as it found it:
    no request is sent.  The reports without a failing entry that the
    specification names (a result list without a failed entry, as
    [{"testResults": []}], suites without a failing spec, an object of
    neither shape) all yield no failing entry. *)
Theorem analyze_without_failures (self : ClaudeAssistant) (report : value)
    (w : world) :
  (extract_failures report = Ok [] →
   analyze_test_failures self report w = (Returns no_failures_message, w) ∧
   requests (analyze_test_failures self report w).2 = requests w) ∧
  (no_failing_entries report → extract_failures report = Ok []).
Proof.
  split; [|apply no_failing_entries_extraction].
  intros Hnone. rewrite analyze_equation. by rewrite Hnone.
Qed.

Lemma init_without_key (key : option str) (w : world) :
  truthy key = false →
  key_available w = false →
  ClaudeAssistant_init key w = (Raises (ValueError missing_key_message), w).
Proof.
  unfold key_available, ClaudeAssistant_init, environ_get, py_or, mbind, M_bind.
  intros Hkey Henv. rewrite Hkey. by rewrite Henv.
Qed.

Lemma with_remote_same (w : world) : with_remote (remote w) w = w.
Proof. by destruct w. Qed.

(** With a key in the environment the constructor returns, the same
    assistant whatever the service. *)
Lemma init_with_key_plan (w : world) :
  key_available w = true →
  ∃ self, ∀ svc, ClaudeAssistant_init None (with_remote svc w) =
                 (Returns self, with_remote svc w).
Proof.
  unfold key_available, ClaudeAssistant_init, environ_get, py_or, mbind, M_bind.
  simpl. intros Henv. rewrite Henv. simpl. by eexists.
Qed.

Lemma init_with_key (w : world) :
  key_available w = true →
  ∃ self, ClaudeAssistant_init None w = (Returns self, w).
Proof.
  intros Hkey. destruct (init_with_key_plan w Hkey) as [self Hinit].
  exists self. specialize (Hinit (remote w)).
  by rewrite with_remote_same in Hinit.
Qed.

Lemma init_cases (w : world) :
  (key_available w = false ∧
   ClaudeAssistant_init None w = (Raises (ValueError missing_key_message), w)) ∨
  (key_available w = true ∧
   ∃ self, ClaudeAssistant_init None w = (Returns self, w)).
Proof.
  destruct (key_available w) eqn:Hkey.
  - right. split; [done|]. by apply init_with_key.
  - left. split; [done|]. by apply init_without_key.
Qed.

(** Without a key the body of the [try] ends at the constructor, and the
    handler reports the configuration error. *)
Lemma main_without_key (args : arguments) (w : world) :
  key_available w = false →
  main_body args w = (Raises (ValueError missing_key_message), w) ∧
  run args w =
    (1%Z, after_stderr_line (diagnostic (ValueError missing_key_message)) w).
Proof.
  intros Henv. unfold run, main, try_except.
  assert (main_body args w = (Raises (ValueError missing_key_message), w))
    as ->; [|done].
  unfold main_body. rewrite bind_equation.
  by rewrite init_without_key.
Qed.

(** The four ways the branch of a command ends.  Which one it is, and the
    request that is sent, do not depend on the service. *)
Lemma dispatch_plan (self : ClaudeAssistant) (args : arguments) (w : world) :
  (∃ usage, usage ∈ [spec_usage; test_analysis_usage; pr_review_usage] ∧
     ∀ svc, dispatch self args (with_remote svc w) =
            (Exits 1%Z, after_stderr_line usage (with_remote svc w))) ∨
  (∃ e, ∀ svc, dispatch self args (with_remote svc w) =
               (Raises e, with_remote svc w)) ∨
  (∀ svc, dispatch self args (with_remote svc w) =
          (Returns no_failures_message, with_remote svc w)) ∨
  (∃ r, ∀ svc, dispatch self args (with_remote svc w) =
               (answer (svc r), sent r (with_remote svc w))).
Proof.
  unfold dispatch. destruct (cmd args).
  - destruct (negb _ || negb _).
    { left. exists spec_usage. split; [set_solver|done]. }
    right. destruct (truthy (codebase_context args)).
    + destruct (file_text w (the (codebase_context args))) as [text|] eqn:Hfile.
      * right; right. eexists. intros svc.
        rewrite bind_equation. unfold read_file.
        change (file_text (with_remote svc w)) with (file_text w). rewrite Hfile.
        apply generate_spec_equation.
      * left. eexists. intros svc.
        rewrite bind_equation. unfold read_file.
        change (file_text (with_remote svc w)) with (file_text w). by rewrite Hfile.
    + right; right. eexists. intros svc. apply generate_spec_equation.
  - destruct (negb _).
    { left. exists test_analysis_usage. split; [set_solver|done]. }
    right.
    assert (∀ svc, json_load (the (test_report args)) (with_remote svc w) =
      match file_text w (the (test_report args)) with
      | Some text =>
          match json_loads text with
          | Some v => (Returns v, with_remote svc w)
          | None => (Raises JSONDecodeError, with_remote svc w)
          end
      | None => (Raises (OSError (the (test_report args))), with_remote svc w)
      end) as Hload.
    { intros svc. unfold json_load. rewrite bind_equation. unfold read_file.
      change (file_text (with_remote svc w)) with (file_text w).
      destruct (file_text w _); [|done]. by destruct (json_loads _). }
    destruct (file_text w (the (test_report args))) as [text|].
    2: { left. eexists. intros svc. by rewrite bind_equation, Hload. }
    destruct (json_loads text) as [report|].
    2: { left. eexists. intros svc. by rewrite bind_equation, Hload. }
    destruct (extract_failures report) as [[|f fs]|e] eqn:Hextract.
    + right; left. intros svc.
      by rewrite bind_equation, Hload, analyze_equation, Hextract.
    + right; right. eexists. intros svc.
      by rewrite bind_equation, Hload, analyze_equation, Hextract.
    + left. eexists. intros svc.
      by rewrite bind_equation, Hload, analyze_equation, Hextract.
  - destruct (negb _ || negb _).
    { left. exists pr_review_usage. split; [set_solver|done]. }
    right. destruct (file_text w (the (diff args))) as [text|] eqn:Hfile.
    + right; right. eexists. intros svc.
      rewrite bind_equation. unfold read_file.
        change (file_text (with_remote svc w)) with (file_text w). rewrite Hfile.
      apply review_pr_equation.
    + left. eexists. intros svc.
      rewrite bind_equation. unfold read_file.
        change (file_text (with_remote svc w)) with (file_text w). by rewrite Hfile.
Qed.

Lemma dispatch_cases (self : ClaudeAssistant) (args : arguments) (w : world) :
  (∃ usage, usage ∈ [spec_usage; test_analysis_usage; pr_review_usage] ∧
            dispatch self args w = (Exits 1%Z, after_stderr_line usage w)) ∨
  (∃ e, dispatch self args w = (Raises e, w)) ∨
  (dispatch self args w = (Returns no_failures_message, w)) ∨
  (∃ r, dispatch self args w = (answer (remote w r), sent r w)).
Proof.
  destruct (dispatch_plan self args w)
    as [(usage & Husage & Heq)|[[e Heq]|[Heq|[r Heq]]]];
    specialize (Heq (remote w)); rewrite with_remote_same in Heq; eauto 10.
Qed.

(** What a run of [test-analysis] makes of a report whose extraction
    raises: the handler reports the exception, and no request is sent. *)
Lemma extraction_error_run (args : arguments) (w : world) (text : str)
    (report : value) (e : exn) :
  cmd args = TestAnalysis →
  key_available w = true →
  truthy (test_report args) = true →
  file_text w (the (test_report args)) = Some text →
  json_loads text = Some report →
  extract_failures report = Err e →
  run args w = (1%Z, after_stderr_line (diagnostic e) w).
Proof.
  intros Hcmd Hkey Hreport Hfile Hjson Hextract.
  destruct (init_with_key w Hkey) as [self Hinit].
  unfold run, main, try_except, main_body.
  rewrite bind_equation, Hinit. cbv beta iota.
  rewrite bind_equation. unfold dispatch. rewrite Hcmd, Hreport.
  cbn [negb]. rewrite bind_equation. unfold json_load.
  rewrite bind_equation. unfold read_file. rewrite Hfile, Hjson.
  unfold mret, M_ret. by rewrite analyze_equation, Hextract.
Qed.

(** The two ways the output step ends: it raises, with nothing printed and
    no request sent, or it returns. *)
Lemma emit_cases (args : arguments) (result : str) (w : world) :
  (∃ e w', emit args result w = (Raises e, w') ∧
           stdout w' = stdout w ∧ stderr w' = stderr w ∧
           requests w' = requests w) ∨
  (∃ w', emit args result w = (Returns (), w') ∧ requests w' = requests w).
Proof.
  unfold emit. destruct (truthy (output args)).
  - rewrite bind_equation. unfold write_file.
    destruct (bool_decide _); [by eauto 10|].
    destruct (utf8_encodable result); [|by eauto 10].
    right. by eexists.
  - right. by eexists.
Qed.

(** C6, amended.  However the body of the [try] ends, the run ends with it.
    An exception (the missing key, an unreadable file, a report that is
    not JSON, a failure of the service, or any other) is caught by the one
    handler: the run prints the failure marker and the text of that
    exception on the error stream and exits with status 1; nothing has
    been printed on the error stream or on standard output before, and at
    most one request has been sent, so nothing is recovered, retried or
    reported in part.  A missing input is no exception: the branch of the
    command has printed its own message, without the marker, on the error
    stream, and [sys.exit(1)] passes the handler by; the status is 1 then
    too. *)
Theorem failures_end_the_run (args : arguments) (w w1 : world) (o : outcome ()) :
  main_body args w = (o, w1) →
  match o with
  | Returns _ => run args w = (0%Z, w1)
  | Raises e =>
      run args w = (1%Z, after_stderr_line (diagnostic e) w1) ∧
      stdout w1 = stdout w ∧ stderr w1 = stderr w ∧
      (requests w1 = requests w ∨ ∃ r, requests w1 = requests w ++ [r])
  | Exits code =>
      code = 1%Z ∧ run args w = (1%Z, w1) ∧
      ∃ usage, usage ∈ [spec_usage; test_analysis_usage; pr_review_usage] ∧
               w1 = after_stderr_line usage w
  end.
Proof.
  intros Hbody. unfold run, main, try_except. rewrite Hbody.
  destruct o as [[]|e|code]; [done|split; [done|]|].
  - revert Hbody. unfold main_body. rewrite !bind_equation.
    destruct (init_cases w) as [[_ ->]|[_ [self ->]]].
    { intros [= <- <-]. eauto. }
    cbv beta iota. rewrite bind_equation.
    destruct (dispatch_cases self args w)
      as [(usage & _ & ->)|[[e' ->]|[->|[r ->]]]]; try done.
    + intros [= <- <-]. eauto.
    + destruct (emit_cases args no_failures_message w)
        as [(e' & w' & -> & Hout & Herr & Hsent)|(w' & -> & _)]; [|done].
      intros [= <- <-]. eauto.
    + destruct (answer (remote w r)) as [text|e'|c] eqn:Hanswer.
      * destruct (emit_cases args text (sent r w))
          as [(e' & w' & -> & Hout & Herr & Hsent)|(w' & -> & _)]; [|done].
        intros [= <- <-]. rewrite Hout, Herr, Hsent. simpl. eauto 10.
      * intros [= <- <-]. simpl. eauto 10.
      * done.
  - revert Hbody. unfold main_body. rewrite !bind_equation.
    destruct (init_cases w) as [[_ ->]|[_ [self ->]]]; [done|].
    cbv beta iota. rewrite bind_equation.
    destruct (dispatch_cases self args w)
      as [(usage & Husage & ->)|[[e' ->]|[->|[r ->]]]]; try done.
    + intros [= <- <-]. eauto.
    + by destruct (emit_cases args no_failures_message w)
        as [(e' & w' & -> & _)|(w' & -> & _)].
    + destruct (answer (remote w r)) as [text|e'|c] eqn:Hanswer; try done.
      * by destruct (emit_cases args text (sent r w))
          as [(e' & w' & -> & _)|(w' & -> & _)].
      * by destruct (remote w r) as [[|]|].
Qed.

Lemma run_requests (args : arguments) (w : world) :
  requests (run args w).2 = requests (main_body args w).2.
Proof.
  unfold run, main, try_except.
  by destruct (main_body args w) as [[[]|e|c] w1].
Qed.

Lemma emit_requests (args : arguments) (result : str) (w : world) :
  requests (emit args result w).2 = requests w.
Proof.
  by destruct (emit_cases args result w)
    as [(e & w' & -> & _ & _ & ?)|(w' & -> & ?)].
Qed.

(** The requests of a run are planned from the arguments, the environment
    and the files alone. *)
Lemma run_requests_plan (args : arguments) (w : world) :
  ∃ rs, ∀ svc, requests (run args (with_remote svc w)).2 = rs.
Proof.
  destruct (key_available w) eqn:Hkey.
  2: { exists (requests w). intros svc.
       by destruct (main_without_key args (with_remote svc w) Hkey) as [_ ->]. }
  destruct (init_with_key_plan w Hkey) as [self Hinit].
  destruct (dispatch_plan self args w)
    as [(usage & Husage & Heq)|[[e Heq]|[Heq|[r Heq]]]].
  - exists (requests w). intros svc. rewrite run_requests. unfold main_body.
    rewrite bind_equation, Hinit. cbv beta iota.
    by rewrite bind_equation, Heq.
  - exists (requests w). intros svc. rewrite run_requests. unfold main_body.
    rewrite bind_equation, Hinit. cbv beta iota.
    by rewrite bind_equation, Heq.
  - exists (requests w). intros svc. rewrite run_requests. unfold main_body.
    rewrite bind_equation, Hinit. cbv beta iota.
    rewrite bind_equation, Heq. by rewrite emit_requests.
  - exists (requests w ++ [r]). intros svc. rewrite run_requests.
    unfold main_body. rewrite bind_equation, Hinit. cbv beta iota.
    rewrite bind_equation, Heq.
    destruct (answer (svc r)) as [text|e|c]; [|done..].
    by rewrite emit_requests.
Qed.

(** C8. The request of [review_pr] is built from the diff and the
    description alone: under any two services the operation sends the same
    request, whose content is the prompt with the diff cut at the same
    place.  The same holds of a whole run of any command. *)
Theorem review_payload_deterministic (self : ClaudeAssistant)
    (diff pr_description : str) (args : arguments) (w : world)
    (svc1 svc2 : request → reply) :
  requests (review_pr self diff pr_description (with_remote svc1 w)).2 =
    requests (review_pr self diff pr_description (with_remote svc2 w)).2 ∧
  requests (review_pr self diff pr_description (with_remote svc1 w)).2 =
    requests w ++ [user_request self 2048 (review_pr_prompt diff pr_description)] ∧
  requests (run args (with_remote svc1 w)).2 =
    requests (run args (with_remote svc2 w)).2.
Proof.
  split; [|split].
  - by rewrite !review_pr_equation.
  - by rewrite review_pr_equation.
  - destruct (run_requests_plan args w) as [rs Hrs]. by rewrite !Hrs.
Qed.

(** C4, amended.  When a key is available, a run of [spec] whose title or
    body is absent or empty fails with the MissingInput condition: status
    1, the message of line 209 on the error stream, and nothing else
    changes, so no request is sent. *)
Theorem spec_requires_title_and_body (args : arguments) (w : world) :
  cmd args = Spec →
  key_available w = true →
  truthy (issue_title args) = false ∨ truthy (issue_body args) = false →
  missing_input_failure w (run args w).
Proof.
  intros Hcmd Hkey Hmissing. unfold missing_input_failure, run, main, try_except.
  destruct (init_with_key w Hkey) as [self Hinit].
  unfold main_body. rewrite bind_equation, Hinit. cbv beta iota.
  rewrite bind_equation. unfold dispatch. rewrite Hcmd.
  by destruct Hmissing as [-> | ->]; [|rewrite orb_true_r].
Qed.

(** C5. Without a key, neither as an argument of the constructor nor in
    [CLAUDE_API_KEY] (unset, or set to the empty string), the constructor
    raises the configuration error and leaves the world untouched, and the
    run of any command ends with status 1 without a request having been
    sent. *)
Theorem missing_key_is_fatal (args : arguments) (w : world) :
  key_available w = false →
  (∀ key, truthy key = false →
     ClaudeAssistant_init key w = (Raises (ValueError missing_key_message), w)) ∧
  ∃ w', run args w = (1%Z, w') ∧ requests w' = requests w.
Proof.
  intros Hkey. split.
  - intros key Hnone. by apply init_without_key.
  - destruct (main_without_key args w Hkey) as [_ ->]. by eexists.
Qed.

Lemma marker_is_not_usage (usage rest : str) :
  usage ∈ [spec_usage; test_analysis_usage; pr_review_usage] →
  cross_mark ++ rest ≠ usage ++ newline.
Proof.
  intros Hin Heq.
  apply elem_of_cons in Hin as [->|Hin]; [by vm_compute in Heq|].
  apply elem_of_cons in Hin as [->|Hin]; [by vm_compute in Heq|].
  apply elem_of_cons in Hin as [->|Hin]; [by vm_compute in Heq|].
  by apply elem_of_nil in Hin.
Qed.

(** C10. Without a key the body of the [try] ends at the constructor,
    before any argument is looked at: whatever the arguments, the run
    reports the configuration error, and never one of the messages of a
    missing input. *)
Theorem credential_checked_first (args : arguments) (w : world) :
  key_available w = false →
  main_body args w = (Raises (ValueError missing_key_message), w) ∧
  run args w =
    (1%Z, after_stderr_line (cross_mark ++ lit " Error: " ++ missing_key_message) w) ∧
  ∀ usage, usage ∈ [spec_usage; test_analysis_usage; pr_review_usage] →
           run args w ≠ (1%Z, after_stderr_line usage w).
Proof.
  intros Hkey. destruct (main_without_key args w Hkey) as [Hbody Hrun].
  split; [done|]. split; [done|].
  intros usage Hin. rewrite Hrun. intros Heq.
  apply (f_equal (λ result, stderr result.2)) in Heq.
  unfold after_stderr_line, with_stderr, diagnostic in Heq.
  cbn [stderr snd] in Heq. apply app_inv_head in Heq.
  rewrite <- app_assoc in Heq. by apply marker_is_not_usage in Heq.
Qed.

(** C7. A run of [spec] with a title and a body, its context file (if one
    is named) readable, a key available, [--output] naming a path that can
    be written, and a service that answers [OK]: the run succeeds, the file
    at the path holds exactly [OK] whatever it held before, the only line
    printed on standard output is the confirmation that names the path, and
    nothing is printed on the error stream. *)
Theorem output_file_written (args : arguments) (w : world) (path : str) :
  cmd args = Spec →
  truthy (issue_title args) = true →
  truthy (issue_body args) = true →
  (truthy (codebase_context args) = true →
   is_Some (files w !! the (codebase_context args))) →
  key_available w = true →
  output args = Some path →
  path ≠ [] →
  path ∉ locked w →
  (∀ r, ∃ rest, remote w r = Replies (lit "OK" :: rest)) →
  ∃ w', run args w = (0%Z, w') ∧
        files w' = <[path := lit "OK"]> (files w) ∧
        stdout w' =
          stdout w ++ check_mark ++ lit " Output written to " ++ path ++ newline ∧
        stderr w' = stderr w.
Proof.
  intros Hcmd Htitle Hbody Hcontext Hkey Hout Hpath Hfree Hstub.
  destruct (init_with_key w Hkey) as [self Hinit].
  assert (∃ r, dispatch self args w = (Returns (lit "OK"), sent r w))
    as [r Hdispatch].
  { unfold dispatch. rewrite Hcmd, Htitle, Hbody. simpl.
    rewrite bind_equation.
    destruct (truthy (codebase_context args)).
    - destruct Hcontext as [text Htext]; [done|].
      unfold read_file, file_text. rewrite Htext. cbn [fmap option_fmap option_map].
      eexists. rewrite generate_spec_equation.
      by destruct (Hstub (user_request self 4096
        (generate_spec_prompt (the (issue_title args)) (the (issue_body args))
           (universal_newlines text)))) as [rest ->].
    - eexists. unfold mret, M_ret. rewrite generate_spec_equation.
      by destruct (Hstub (user_request self 4096
        (generate_spec_prompt (the (issue_title args)) (the (issue_body args))
           []))) as [rest ->]. }
  unfold run, main, try_except, main_body.
  rewrite bind_equation, Hinit. cbv beta iota.
  rewrite bind_equation, Hdispatch.
  unfold emit. rewrite Hout.
  assert (truthy (Some path) = true) as -> by by destruct path.
  rewrite bind_equation. unfold write_file, print, the.
  cbn [locked sent with_requests default]. rewrite bool_decide_false by done.
  assert (utf8_encodable (lit "OK") = true) as -> by by vm_compute.
  eexists. split; [done|].
  unfold with_stdout, with_files, sent, with_requests. cbn [files stdout stderr].
  by rewrite <- !app_assoc.
Qed.

End runs.

(** * Further properties *)

(** ** More on the extraction *)

(** The Vitest loop over a readable prefix of the entries. *)
Lemma vitest_loop_app (pre rest : list value) (acc : list failure) :
  forallb entry_readable pre = true →
  vitest_loop (pre ++ rest) acc = vitest_loop rest (acc ++ vitest_failures pre).
Proof.
  unfold vitest_failures.
  revert acc. induction pre as [|t pre IH]; intros acc Hall.
  - simpl. by rewrite app_nil_r.
  - apply andb_prop in Hall as [Ht Hall]. simpl app.
    rewrite vitest_loop_step by done. rewrite (IH _ Hall). simpl.
    destruct (entry_failed t); [|done].
    by rewrite <- app_assoc.
Qed.

(** The Vitest loop on an entry it cannot read. *)
Lemma vitest_loop_unreadable (v : value) (rest : list value) (acc : list failure) :
  entry_readable v = false →
  ∃ e, vitest_loop (v :: rest) acc = Err e ∧
       (is_dict v = false → e = AttributeError) ∧
       (∀ t, v = VDict t → t !! lit "assertionResults" = Some (VList []) →
             e = IndexError).
Proof.
  destruct v as [| | | | | |d]; try (by eexists; split; [done|split; [done|intros t [=]]]).
  simpl. intros Hread.
  destruct (d !! lit "status") as [[| | | |s| |]|]; simpl in *; try done.
  case_bool_decide; simpl in *; [|done].
  destruct (d !! lit "assertionResults") as [[| | | |[|c s']|[|[] l]|]|] eqn:Ha;
    try done; simpl;
    (eexists; split; [done|split; [done|intros t [= <-]; rewrite Ha; by intros [=] ]]).
Qed.

(** X1. On a report of the result-list shape whose entries can be read,
    the Failure List holds one record for each entry whose status is the
    string [failed], in the order of the report, and none for any other
    entry, whatever else that entry holds.  The record takes its file from
    the name of the entry, its error from the message ([Unknown error]
    when absent), and its test from the title of the first assertion
    result, [Unknown] when the entry has no [assertionResults] or the
    first one has no title. *)
Theorem vitest_failures_extracted (d : gmap str value) (tests : list value) :
  d !! lit "testResults" = Some (VList tests) →
  forallb entry_readable tests = true →
  extract_failures (VDict d) =
    Ok (entry_record <$> List.filter entry_failed tests) ∧
  (∀ t : gmap str value,
     (entry_failed (VDict t) = true ↔
      t !! lit "status" = Some (VStr (lit "failed"))) ∧
     (entry_failed (VDict t) = false → entry_readable (VDict t) = true) ∧
     file (entry_record (VDict t)) = default VNone (t !! lit "name") ∧
     error (entry_record (VDict t)) =
       default (VStr (lit "Unknown error")) (t !! lit "message") ∧
     (t !! lit "assertionResults" = None →
      test (entry_record (VDict t)) = VStr (lit "Unknown")) ∧
     (∀ (a : gmap str value) rest,
        t !! lit "assertionResults" = Some (VList (VDict a :: rest)) →
        test (entry_record (VDict t)) =
          default (VStr (lit "Unknown")) (a !! lit "title"))).
Proof.
  intros Hd Hall. split; [by apply vitest_extraction|].
  intros t. unfold entry_readable, entry_record, entry_title, entry_message.
  cbn [file test error field entry_failed].
  repeat split.
  - destruct (t !! lit "status") as [[| | | |s| |]|]; try done.
    case_bool_decide; [by subst|done].
  - destruct (t !! lit "status") as [[| | | |s| |]|]; try done.
    intros [= ->]. by rewrite bool_decide_true.
  - by intros ->.
  - by intros ->.
  - by intros a rest ->.
Qed.

(** X2. When the report has a [testResults] key, whatever it holds under
    [suites] is ignored. *)
Theorem result_list_takes_precedence (d : gmap str value) (v : value) :
  is_Some (d !! lit "testResults") →
  extract_failures (VDict (<[lit "suites" := v]> d)) = extract_failures (VDict d).
Proof.
  intros [tests Hd]. unfold extract_failures. simpl.
  rewrite lookup_insert_ne by (by vm_compute). by rewrite Hd.
Qed.

(** X3. The extraction is all or nothing: after entries that can be read,
    the first entry that cannot be read ends it with an exception, and no
    Failure List is returned, whatever the entries before it recorded.  An
    entry that is not an object raises [AttributeError]; a failing entry
    whose [assertionResults] is the empty list raises [IndexError]. *)
Theorem unreadable_entry_aborts (d : gmap str value) (pre post : list value)
    (v : value) :
  d !! lit "testResults" = Some (VList (pre ++ v :: post)) →
  forallb entry_readable pre = true →
  entry_readable v = false →
  ∃ e, extract_failures (VDict d) = Err e ∧
       (is_dict v = false → e = AttributeError) ∧
       (∀ t, v = VDict t → t !! lit "assertionResults" = Some (VList []) →
             e = IndexError).
Proof.
  intros Hd Hpre Hv. unfold extract_failures. simpl. rewrite Hd. simpl.
  rewrite vitest_loop_app by done.
  by apply vitest_loop_unreadable.
Qed.

(** ** More on the operations and the entry point *)

Section coverage.
Context `{Library}.

Lemma init_environment (w : world) :
  key_available w = true →
  ClaudeAssistant_init None w = (Returns (environment_assistant w), w).
Proof.
  unfold key_available, ClaudeAssistant_init, environ_get, py_or, mbind, M_bind.
  simpl. intros Henv. by rewrite Henv.
Qed.

(** The output step, written out. *)
Lemma emit_equation (args : arguments) (result : str) (w : world) :
  emit args result w =
  if truthy (output args) then
    if bool_decide (the (output args) ∈ locked w)
    then (Raises (OSError (the (output args))), w)
    else if utf8_encodable result
    then (Returns (),
          with_stdout (stdout w ++ confirmation (the (output args)) ++ newline)
            (with_files (<[the (output args) := result]> (files w)) w))
    else (Raises UnicodeEncodeError,
          with_files (<[the (output args) := []]> (files w)) w)
  else (Returns (), with_stdout (stdout w ++ result ++ newline) w).
Proof.
  unfold emit. destruct (truthy (output args)); [|done].
  rewrite bind_equation. unfold write_file.
  destruct (bool_decide _); [done|]. by destruct (utf8_encodable result).
Qed.

Lemma finish_equation (args : arguments) (result : str) (w : world) :
  finish args result w =
  if truthy (output args) then
    if bool_decide (the (output args) ∈ locked w)
    then (1%Z, after_stderr_line (diagnostic (OSError (the (output args)))) w)
    else if utf8_encodable result
    then (0%Z,
          with_stdout (stdout w ++ confirmation (the (output args)) ++ newline)
            (with_files (<[the (output args) := result]> (files w)) w))
    else (1%Z,
          after_stderr_line (diagnostic UnicodeEncodeError)
            (with_files (<[the (output args) := []]> (files w)) w))
  else (0%Z, with_stdout (stdout w ++ result ++ newline) w).
Proof.
  unfold finish, try_except. rewrite emit_equation.
  destruct (truthy (output args)); [|done].
  destruct (bool_decide _); [done|]. by destruct (utf8_encodable result).
Qed.

(** The branch of a command, with the request it sends. *)
Lemma dispatch_shape (self : ClaudeAssistant) (args : arguments) (w : world) :
  (∃ usage, usage ∈ [spec_usage; test_analysis_usage; pr_review_usage] ∧
            dispatch self args w = (Exits 1%Z, after_stderr_line usage w)) ∨
  (∃ e, dispatch self args w = (Raises e, w)) ∨
  (dispatch self args w = (Returns no_failures_message, w)) ∨
  (∃ prompt,
     dispatch self args w =
     (answer (remote w (user_request self (command_max_tokens (cmd args)) prompt)),
      sent (user_request self (command_max_tokens (cmd args)) prompt) w)).
Proof.
  unfold dispatch. destruct (cmd args); cbn [command_max_tokens].
  - destruct (negb _ || negb _).
    { left. exists spec_usage. split; [set_solver|done]. }
    right. rewrite bind_equation.
    destruct (truthy (codebase_context args)).
    + unfold read_file. destruct (file_text w _); [|by eauto].
      right; right. eexists. apply generate_spec_equation.
    + right; right. eexists. apply generate_spec_equation.
  - destruct (negb _).
    { left. exists test_analysis_usage. split; [set_solver|done]. }
    right. unfold json_load. rewrite !bind_equation. unfold read_file.
    destruct (file_text w _); [|by eauto].
    destruct (json_loads _) as [report|]; [|by eauto].
    unfold mret, M_ret. rewrite analyze_equation.
    destruct (extract_failures report) as [[|f fs]|e]; by eauto.
  - destruct (negb _ || negb _).
    { left. exists pr_review_usage. split; [set_solver|done]. }
    right. rewrite bind_equation. unfold read_file.
    destruct (file_text w _); [|by eauto].
    right; right. eexists. apply review_pr_equation.
Qed.

(** With a key, a run is its branch followed by the end of the run. *)
Lemma run_with_key (args : arguments) (w : world) :
  key_available w = true →
  run args w =
  match dispatch (environment_assistant w) args w with
  | (Returns result, w') => finish args result w'
  | (Raises e, w') => (1%Z, after_stderr_line (diagnostic e) w')
  | (Exits code, w') => (code, w')
  end.
Proof.
  intros Hkey. unfold run, main, finish, try_except, main_body.
  rewrite bind_equation, init_environment by done. cbv beta iota.
  rewrite bind_equation.
  by destruct (dispatch _ args w) as [[result|e|code] w'].
Qed.

(** The ways a run ends. *)
Lemma run_cases (args : arguments) (w : world) :
  (key_available w = false ∧
   run args w =
     (1%Z, after_stderr_line (diagnostic (ValueError missing_key_message)) w)) ∨
  (key_available w = true ∧
   ((∃ usage, usage ∈ [spec_usage; test_analysis_usage; pr_review_usage] ∧
              run args w = (1%Z, after_stderr_line usage w)) ∨
    (∃ e, run args w = (1%Z, after_stderr_line (diagnostic e) w)) ∨
    (run args w = finish args no_failures_message w) ∨
    (∃ prompt e,
       let r := user_request (environment_assistant w)
                  (command_max_tokens (cmd args)) prompt in
       answer (remote w r) = Raises e ∧
       run args w = (1%Z, after_stderr_line (diagnostic e) (sent r w))) ∨
    (∃ prompt result,
       let r := user_request (environment_assistant w)
                  (command_max_tokens (cmd args)) prompt in
       answer (remote w r) = Returns result ∧
       run args w = finish args result (sent r w)))).
Proof.
  destruct (key_available w) eqn:Hkey.
  2: { left. split; [done|]. by apply main_without_key. }
  right. split; [done|]. rewrite run_with_key by done.
  destruct (dispatch_shape (environment_assistant w) args w)
    as [(usage & Husage & ->)|[[e ->]|[->|[prompt ->]]]]; [by eauto..|].
  destruct (answer _) as [result|e|code] eqn:Hanswer.
  - do 4 right. by exists prompt, result.
  - do 3 right. left. by exists prompt, e.
  - unfold answer in Hanswer. by destruct (remote _ _) as [[|]|].
Qed.

Ltac world_simpl :=
  unfold after_stderr_line, sent, with_stdout, with_stderr, with_files,
    with_requests;
  cbn [environ files locked stdout stderr requests remote fst snd].

(** X4. A run sends at most one request, so nothing is retried; the
    request carries the key of the environment, the one model of line 29,
    4096 as [max_tokens] for [spec] and 2048 for the two other commands,
    and a single message, of role [user]. *)
Theorem run_sends_at_most_one_request (args : arguments) (w : world) :
  requests (run args w).2 = requests w ∨
  ∃ prompt,
    key_available w = true ∧
    requests (run args w).2 =
    requests w ++
      [{| req_api_key := the (environ w !! lit "CLAUDE_API_KEY");
          req_model := lit "claude-3-5-sonnet-20241022";
          req_max_tokens := command_max_tokens (cmd args);
          req_messages := [{| role := lit "user"; content := prompt |}] |}].
Proof.
  destruct (run_cases args w)
    as [[_ ->]|[Hkey [(usage & _ & ->)|[[e ->]|[->|
         [(prompt & e & _ & ->)|(prompt & result & _ & ->)]]]]]];
    try (by left).
  - left. rewrite finish_equation. by repeat case_match.
  - right. by exists prompt.
  - right. exists prompt. split; [done|].
    rewrite finish_equation. by repeat case_match.
Qed.

(** X5. Once the command line has been parsed, [main] ends with status 0
    or 1.  With status 0 it has printed nothing on the error stream.  With
    status 1 it has printed nothing on standard output, and on the error
    stream one text and a line feed, no more: one of the three messages of
    a missing input, or the failure marker with the text of an
    exception. *)
Theorem run_status (args : arguments) (w : world) :
  ((run args w).1 = 0%Z ∧ stderr (run args w).2 = stderr w) ∨
  ((run args w).1 = 1%Z ∧
   stdout (run args w).2 = stdout w ∧
   ∃ text,
     stderr (run args w).2 = stderr w ++ text ++ newline ∧
     (text ∈ [spec_usage; test_analysis_usage; pr_review_usage] ∨
      ∃ e, text = diagnostic e)).
Proof.
  assert (∀ result w', stdout w' = stdout w → stderr w' = stderr w →
    ((finish args result w').1 = 0%Z ∧ stderr (finish args result w').2 = stderr w) ∨
    ((finish args result w').1 = 1%Z ∧
     stdout (finish args result w').2 = stdout w ∧
     ∃ text,
       stderr (finish args result w').2 = stderr w ++ text ++ newline ∧
       (text ∈ [spec_usage; test_analysis_usage; pr_review_usage] ∨
        ∃ e, text = diagnostic e))) as Hfinish.
  { intros result w' Hout Herr. rewrite finish_equation.
    repeat case_match; world_simpl; rewrite ?Hout, ?Herr;
      first [by left | right; by eauto 10]. }
  destruct (run_cases args w)
    as [[_ ->]|[Hkey [(usage & Husage & ->)|[[e ->]|[->|
         [(prompt & e & _ & ->)|(prompt & result & _ & ->)]]]]]];
    try (right; world_simpl; by eauto 10).
  - by apply Hfinish.
  - by apply Hfinish.
Qed.

(** X6. A run that ends with status 0 has emitted one result, verbatim:
    the text of the first content block of the reply to the one request it
    sent, or the fixed success string when it sent none.  With [--output]
    the result is the new content of the file at that path, every other
    file is as it was, and standard output gains the confirmation only;
    without it (or with an empty path) the result is printed on standard
    output and no file changes. *)
Theorem successful_run_output (args : arguments) (w : world) :
  (run args w).1 = 0%Z →
  ∃ result,
    ((result = no_failures_message ∧ requests (run args w).2 = requests w) ∨
     (∃ r rest, requests (run args w).2 = requests w ++ [r] ∧
                remote w r = Replies (result :: rest))) ∧
    if truthy (output args) then
      files (run args w).2 = <[the (output args) := result]> (files w) ∧
      stdout (run args w).2 =
        stdout w ++ confirmation (the (output args)) ++ newline
    else
      files (run args w).2 = files w ∧
      stdout (run args w).2 = stdout w ++ result ++ newline.
Proof.
  destruct (run_cases args w)
    as [[_ ->]|[Hkey [(usage & _ & ->)|[[e ->]|[->|
         [(prompt & e & _ & ->)|(prompt & result & Hanswer & ->)]]]]]];
    try done.
  - rewrite finish_equation. intros Hstatus. exists no_failures_message.
    split; [left; split; [done|]; by repeat case_match|].
    by repeat case_match.
  - rewrite finish_equation. intros Hstatus. exists result. split.
    + right. unfold answer in Hanswer.
      destruct (remote w _) as [[|text rest]|msg] eqn:Hreply; try done.
      injection Hanswer as ->. eexists _, rest. split; [|done].
      by repeat case_match.
    + by repeat case_match.
Qed.

(** X7. The output path is opened only after the operation has returned:
    when it cannot be written, every run ends with status 1, and a run
    whose operation had returned a result (its request sent, its reply
    received) loses that result and reports the error of [open]. *)
Theorem unwritable_output_fails (args : arguments) (w : world) :
  truthy (output args) = true →
  the (output args) ∈ locked w →
  (run args w).1 = 1%Z ∧
  ∀ result w',
    key_available w = true →
    dispatch (environment_assistant w) args w = (Returns result, w') →
    run args w =
      (1%Z, after_stderr_line (diagnostic (OSError (the (output args)))) w').
Proof.
  intros Hout Hlocked. split.
  - destruct (run_cases args w)
      as [[_ ->]|[Hkey [(usage & _ & ->)|[[e ->]|[->|
           [(prompt & e & _ & ->)|(prompt & result & _ & ->)]]]]]];
      try done; rewrite finish_equation, Hout; world_simpl;
      by rewrite bool_decide_true.
  - intros result w' Hkey Hdispatch.
    assert (locked w' = locked w) as Hsame.
    { destruct (dispatch_shape (environment_assistant w) args w)
        as [(usage & _ & Heq)|[[e Heq]|[Heq|[prompt Heq]]]];
        rewrite Heq in Hdispatch; by simplify_eq. }
    rewrite run_with_key, Hdispatch, finish_equation, Hout by done.
    by rewrite Hsame, bool_decide_true.
Qed.

(** X19. A result that UTF-8 cannot encode (a reply with a lone
    surrogate), with [--output] naming a path that can be opened: [open]
    has emptied the file before [f.write] raises, so the run ends in the
    handler with status 1 and the file at the path is left empty, whatever
    it held before; nothing is printed on standard output. *)
Theorem unencodable_result_empties_output (args : arguments) (w w' : world)
    (result : str) :
  key_available w = true →
  dispatch (environment_assistant w) args w = (Returns result, w') →
  truthy (output args) = true →
  the (output args) ∉ locked w →
  utf8_encodable result = false →
  run args w =
    (1%Z,
     after_stderr_line (diagnostic UnicodeEncodeError)
       (with_files (<[the (output args) := []]> (files w')) w')) ∧
  files w' = files w ∧ stdout w' = stdout w.
Proof.
  intros Hkey Hdispatch Hout Hfree Hresult.
  assert (locked w' = locked w ∧ files w' = files w ∧ stdout w' = stdout w)
    as (Hlocked & Hfiles & Hstdout).
  { destruct (dispatch_shape (environment_assistant w) args w)
      as [(usage & _ & Heq)|[[e Heq]|[Heq|[prompt Heq]]]];
      rewrite Heq in Hdispatch; by simplify_eq. }
  split; [|done].
  rewrite run_with_key, Hdispatch, finish_equation, Hout, Hresult by done.
  by rewrite Hlocked, bool_decide_false.
Qed.

End coverage.

Section commands.
Context `{Library}.

(** X8. With a key, a run of [test-analysis] without a report path (absent
    or empty) prints the message of line 221 on the error stream, without
    the failure marker, and exits with status 1; nothing else changes, so
    no file is read and no request is sent. *)
Theorem test_analysis_requires_report (args : arguments) (w : world) :
  cmd args = TestAnalysis →
  key_available w = true →
  truthy (test_report args) = false →
  run args w = (1%Z, after_stderr_line test_analysis_usage w).
Proof.
  intros Hcmd Hkey Hreport. rewrite run_with_key by done.
  unfold dispatch. by rewrite Hcmd, Hreport.
Qed.

(** X9. With a key, a run of [pr-review] whose diff path or description is
    absent or empty prints the message of line 231 on the error stream,
    without the failure marker, and exits with status 1; nothing else
    changes, so the diff is not read and no request is sent. *)
Theorem pr_review_requires_diff_and_description (args : arguments) (w : world) :
  cmd args = PrReview →
  key_available w = true →
  truthy (diff args) = false ∨ truthy (pr_description args) = false →
  run args w = (1%Z, after_stderr_line pr_review_usage w).
Proof.
  intros Hcmd Hkey Hmissing. rewrite run_with_key by done.
  unfold dispatch. rewrite Hcmd.
  by destruct Hmissing as [-> | ->]; [|rewrite orb_true_r].
Qed.

(** X10. An input file that cannot be read (the codebase context of
    [spec], the report of [test-analysis], the diff of [pr-review]) ends
    the run in the handler with the error of [open]: status 1, one line
    with the failure marker, and no request sent. *)
Theorem unreadable_input_reported (args : arguments) (w : world) :
  key_available w = true →
  (cmd args = Spec →
   truthy (issue_title args) = true → truthy (issue_body args) = true →
   truthy (codebase_context args) = true →
   files w !! the (codebase_context args) = None →
   run args w =
     (1%Z, after_stderr_line (diagnostic (OSError (the (codebase_context args)))) w)) ∧
  (cmd args = TestAnalysis →
   truthy (test_report args) = true →
   files w !! the (test_report args) = None →
   run args w =
     (1%Z, after_stderr_line (diagnostic (OSError (the (test_report args)))) w)) ∧
  (cmd args = PrReview →
   truthy (diff args) = true → truthy (pr_description args) = true →
   files w !! the (diff args) = None →
   run args w =
     (1%Z, after_stderr_line (diagnostic (OSError (the (diff args)))) w)).
Proof.
  intros Hkey. rewrite run_with_key by done. unfold dispatch.
  split; [|split].
  - intros -> -> -> -> Hfile. cbn [negb orb].
    rewrite bind_equation. unfold read_file, file_text. by rewrite Hfile.
  - intros -> -> Hfile. cbn [negb]. unfold json_load.
    rewrite !bind_equation. unfold read_file, file_text. by rewrite Hfile.
  - intros -> -> -> Hfile. cbn [negb orb].
    rewrite bind_equation. unfold read_file, file_text. by rewrite Hfile.
Qed.

(** X11. A run of [test-analysis] on a report file whose text is not
    JSON, or whose extraction raises, ends in the handler with that
    exception: status 1, one line with the failure marker, and no request
    sent. *)
Theorem unusable_report_reported (args : arguments) (w : world) (text : str) :
  cmd args = TestAnalysis →
  key_available w = true →
  truthy (test_report args) = true →
  file_text w (the (test_report args)) = Some text →
  (json_loads text = None →
   run args w = (1%Z, after_stderr_line (diagnostic JSONDecodeError) w)) ∧
  (∀ report e,
     json_loads text = Some report →
     extract_failures report = Err e →
     run args w = (1%Z, after_stderr_line (diagnostic e) w)).
Proof.
  intros Hcmd Hkey Hreport Hfile. split.
  - intros Hjson. rewrite run_with_key by done. unfold dispatch.
    rewrite Hcmd, Hreport. cbn [negb]. unfold json_load.
    rewrite !bind_equation. unfold read_file. by rewrite Hfile, Hjson.
  - intros report e Hjson Hextract.
    by apply (extraction_error_run args w text report e).
Qed.

(** X12. From the command line, a report without a failing entry: the run
    of [test-analysis] prints the fixed success string on standard output
    and exits with status 0; nothing else changes, so no request is
    sent. *)
Theorem test_analysis_short_circuit (args : arguments) (w : world)
    (text : str) (report : value) :
  cmd args = TestAnalysis →
  key_available w = true →
  truthy (test_report args) = true →
  file_text w (the (test_report args)) = Some text →
  json_loads text = Some report →
  extract_failures report = Ok [] →
  truthy (output args) = false →
  run args w = (0%Z, with_stdout (stdout w ++ no_failures_message ++ newline) w).
Proof.
  intros Hcmd Hkey Hreport Hfile Hjson Hextract Hout.
  rewrite run_with_key by done. unfold dispatch.
  rewrite Hcmd, Hreport. cbn [negb]. unfold json_load.
  rewrite !bind_equation. unfold read_file. rewrite Hfile, Hjson.
  unfold mret, M_ret. rewrite analyze_equation, Hextract.
  by rewrite finish_equation, Hout.
Qed.

(** X13. From the command line, a review: with a key and its two inputs,
    the run of [pr-review] reads the diff as text (its line endings read
    as line feeds), sends exactly one request (the key of the environment,
    2048 tokens, the prompt of that text and the description), and ends by
    the reply: the text of the first content block goes to the output
    step of lines 240-245; a reply without a block, or an error of the
    client, is reported by the handler with status 1. *)
Theorem pr_review_run (args : arguments) (w : world) (d : str) :
  cmd args = PrReview →
  key_available w = true →
  truthy (diff args) = true →
  truthy (pr_description args) = true →
  file_text w (the (diff args)) = Some d →
  let r := user_request (environment_assistant w) 2048
             (review_pr_prompt d (the (pr_description args))) in
  run args w =
    match remote w r with
    | Replies (text :: _) => finish args text (sent r w)
    | Replies [] => (1%Z, after_stderr_line (diagnostic IndexError) (sent r w))
    | Fails msg =>
        (1%Z, after_stderr_line (diagnostic (APIError msg)) (sent r w))
    end.
Proof.
  intros Hcmd Hkey Hdiff Hdesc Hfile r.
  rewrite run_with_key by done. unfold dispatch.
  rewrite Hcmd, Hdiff, Hdesc. cbn [negb orb].
  rewrite bind_equation. unfold read_file. rewrite Hfile.
  rewrite review_pr_equation. cbv zeta. fold r.
  by destruct (remote w r) as [[|text rest]|msg].
Qed.

(** X14. From the command line, a specification: with a key, a title and a
    body, the run of [spec] embeds the text of the context file (its line
    endings read as line feeds), or the empty string when no context path
    is given (absent or empty), sends exactly one request (the key of the
    environment, 4096 tokens, the prompt of title, body and context), and
    ends by the reply: the text of the first content block goes to the
    output step of lines 240-245; a reply without a block, or an error of
    the client, is reported by the handler with status 1. *)
Theorem spec_run (args : arguments) (w : world) (context : str) :
  cmd args = Spec →
  key_available w = true →
  truthy (issue_title args) = true →
  truthy (issue_body args) = true →
  (if truthy (codebase_context args)
   then file_text w (the (codebase_context args)) = Some context
   else context = []) →
  let r := user_request (environment_assistant w) 4096
             (generate_spec_prompt (the (issue_title args))
                (the (issue_body args)) context) in
  run args w =
    match remote w r with
    | Replies (text :: _) => finish args text (sent r w)
    | Replies [] => (1%Z, after_stderr_line (diagnostic IndexError) (sent r w))
    | Fails msg =>
        (1%Z, after_stderr_line (diagnostic (APIError msg)) (sent r w))
    end.
Proof.
  intros Hcmd Hkey Htitle Hbody Hcontext r.
  rewrite run_with_key by done. unfold dispatch.
  rewrite Hcmd, Htitle, Hbody. cbn [negb orb].
  rewrite bind_equation.
  destruct (truthy (codebase_context args)).
  - unfold read_file. rewrite Hcontext.
    rewrite generate_spec_equation. cbv zeta. fold r.
    by destruct (remote w r) as [[|text rest]|msg].
  - unfold r. subst context. unfold mret, M_ret.
    rewrite generate_spec_equation. cbv zeta.
    by destruct (remote w _) as [[|text rest]|msg].
Qed.

(** X15. When the extraction yields failing entries, [analyze_test_failures]
    sends one request of 2048 tokens whose prompt holds the Failure List as
    [json.dumps] renders it, whole, between two fixed texts; it returns the
    text of the first content block of the reply, raises [IndexError] when
    the reply has none, and lets the error of the client through; the
    request has been sent in each case. *)
Theorem analyze_with_failures (self : ClaudeAssistant) (report : value)
    (w : world) (f : failure) (fs : list failure) :
  extract_failures report = Ok (f :: fs) →
  analyze_test_failures self report w =
    (match remote w (user_request self 2048 (analyze_prompt (f :: fs))) with
     | Replies (text :: _) => Returns text
     | Replies [] => Raises IndexError
     | Fails msg => Raises (APIError msg)
     end,
     sent (user_request self 2048 (analyze_prompt (f :: fs))) w) ∧
  ∃ before after, ∀ failures,
    analyze_prompt failures = before ++ json_dumps failures ++ after.
Proof.
  intros Hextract. split.
  - by rewrite analyze_equation, Hextract.
  - unfold analyze_prompt. by eexists _, _.
Qed.

(** X16. What a run that has sent its request does with the reply: the
    text of the first content block goes to the output step, the other
    blocks are ignored; a reply without a content block ends the run in
    the handler with [IndexError], an error of the client with that error,
    and the request has been sent all the same. *)
Theorem reply_handling (args : arguments) (w : world) :
  requests (run args w).2 ≠ requests w →
  ∃ r, requests (run args w).2 = requests w ++ [r] ∧
       match remote w r with
       | Replies (text :: _) => run args w = finish args text (sent r w)
       | Replies [] =>
           run args w =
           (1%Z, after_stderr_line (diagnostic IndexError) (sent r w))
       | Fails msg =>
           run args w =
           (1%Z, after_stderr_line (diagnostic (APIError msg)) (sent r w))
       end.
Proof.
  destruct (run_cases args w)
    as [[_ ->]|[Hkey [(usage & _ & ->)|[[e ->]|[->|
         [(prompt & e & Hanswer & ->)|(prompt & result & Hanswer & ->)]]]]]];
    try done.
  - rewrite finish_equation. by repeat case_match.
  - intros _. eexists. split; [done|].
    unfold answer in Hanswer. destruct (remote w _) as [[|text rest]|msg];
      by simplify_eq.
  - intros _. eexists. split.
    + rewrite finish_equation. by repeat case_match.
    + unfold answer in Hanswer. destruct (remote w _) as [[|text rest]|msg];
        by simplify_eq.
Qed.

(** X17. The constructor prefers its argument: a key that is a non-empty
    string is the key of the assistant whatever the environment holds; an
    argument that is [None] or the empty string falls back to
    [CLAUDE_API_KEY].  In both cases the model is the one of line 29 and
    the world is left as it was. *)
Theorem constructor_key_precedence (key : option str) (w : world) :
  (truthy key = true →
   ClaudeAssistant_init key w =
   (Returns {| api_key := the key; model := lit "claude-3-5-sonnet-20241022" |},
    w)) ∧
  (truthy key = false → key_available w = true →
   ClaudeAssistant_init key w = (Returns (environment_assistant w), w)).
Proof.
  unfold key_available, ClaudeAssistant_init, environ_get, py_or.
  rewrite bind_equation. cbv beta iota zeta. split.
  - intros Hkey. by rewrite !Hkey.
  - intros Hkey Henv. by rewrite Hkey, Henv.
Qed.

End commands.

(** X18. The size of a prompt: the fixed text (888, 454 and 662
    characters), the inputs that are embedded whole (the title and the
    body, the rendered Failure List, the description), and the context or
    the diff up to its budget.  Only the context and the diff are
    bounded. *)
Theorem prompt_lengths `{Library} (issue_title issue_body codebase_context
    diff pr_description : str) (failures : list failure) :
  len (generate_spec_prompt issue_title issue_body codebase_context) =
    (888 + len issue_title + len issue_body + Z.min 4000 (len codebase_context))%Z ∧
  len (analyze_prompt failures) = (454 + len (json_dumps failures))%Z ∧
  len (review_pr_prompt diff pr_description) =
    (662 + len pr_description + Z.min 8000 (len diff))%Z.
Proof.
  unfold generate_spec_prompt, analyze_prompt, review_pr_prompt, slice_to, len.
  cbn [Z.ltb Z.compare]. rewrite !length_app, !length_take.
  repeat match goal with
  | |- context [length (lit ?s)] =>
      let n := eval vm_compute in (length (lit s)) in
      change (length (lit s)) with n
  end.
  lia.
Qed.

(** ** Examples *)

#[local] Existing Instance example_library.

(** The report [{"testResults": []}]. *)
Lemma analyze_without_failures_witness :
  analyze_test_failures {| api_key := example_key; model := lit "m" |}
    (VDict {[ lit "testResults" := VList [] ]}) (example_world (Some example_key)) =
  (Returns no_failures_message, example_world (Some example_key)).
Proof.
  apply (proj1 (analyze_without_failures _ _ _)).
  apply (proj2 (analyze_without_failures
    {| api_key := example_key; model := lit "m" |} _ (example_world None))).
  by apply (clean_result_list _ []); [vm_compute|..].
Defined.

(** C4 as it is stated, at a run of [spec] without a title and without a
    key: the run does not fail with the MissingInput condition (it reports
    the missing key). *)
Lemma missing_input_needs_credential :
  cmd (spec_arguments None None None) = Spec ∧
  truthy (issue_title (spec_arguments None None None)) = false ∧
  ¬ missing_input_failure (example_world None)
      (run (spec_arguments None None None) (example_world None)).
Proof.
  split; [done|]. split; [done|]. unfold missing_input_failure. intros Heq.
  apply (f_equal (λ result, stderr result.2)) in Heq. by vm_compute in Heq.
Qed.

(** A run of [spec] with a key and a body, without a title. *)
Lemma spec_requires_title_and_body_witness :
  missing_input_failure (example_world (Some example_key))
    (run (spec_arguments None (Some (lit "body")) None)
       (example_world (Some example_key))).
Proof.
  apply spec_requires_title_and_body; [done|by vm_compute|by left].
Defined.

(** A run of [spec] with a title and a body, without a key. *)
Lemma missing_key_is_fatal_witness :
  ∃ w', run (spec_arguments (Some (lit "title")) (Some (lit "body")) None)
          (example_world None) = (1%Z, w') ∧
        requests w' = requests (example_world None).
Proof.
  apply (missing_key_is_fatal
    (spec_arguments (Some (lit "title")) (Some (lit "body")) None)
    (example_world None)).
  by vm_compute.
Defined.

(** C6 as it is stated, at a run of [spec] with a key and without a title:
    the run fails, and what it prints on the error stream does not start
    with the failure marker. *)
Lemma missing_input_not_reported_with_marker :
  (run (spec_arguments None None None) (example_world (Some example_key))).1 ≠ 0%Z ∧
  ¬ reported_with_marker (example_world (Some example_key))
      (run (spec_arguments None None None) (example_world (Some example_key))).
Proof.
  split; [by vm_compute|]. intros [_ [text Htext]]. by vm_compute in Htext.
Qed.

(** A run of [spec] against a service that is down: the exception of the
    client is reported by the handler. *)
Lemma failures_end_the_run_witness :
  run (spec_arguments (Some (lit "title")) (Some (lit "body")) None)
    (with_remote failing_service (example_world (Some example_key))) =
  (1%Z,
   after_stderr_line (diagnostic (APIError (lit "overloaded")))
     (main_body (spec_arguments (Some (lit "title")) (Some (lit "body")) None)
        (with_remote failing_service (example_world (Some example_key)))).2).
Proof.
  refine (proj1 (failures_end_the_run
    (spec_arguments (Some (lit "title")) (Some (lit "body")) None)
    (with_remote failing_service (example_world (Some example_key)))
    _ (Raises (APIError (lit "overloaded"))) _)).
  by vm_compute.
Defined.

(** A run of [spec] with [--output spec.md], a file that exists. *)
Lemma output_file_written_witness :
  ∃ w', run (spec_arguments (Some (lit "title")) (Some (lit "body"))
               (Some (lit "spec.md")))
          (example_world (Some example_key)) = (0%Z, w') ∧
        files w' !! lit "spec.md" = Some (lit "OK") ∧
        stdout w' = check_mark ++ lit " Output written to spec.md" ++ newline.
Proof.
  destruct (output_file_written
    (spec_arguments (Some (lit "title")) (Some (lit "body")) (Some (lit "spec.md")))
    (example_world (Some example_key)) (lit "spec.md"))
    as (w' & Hrun & Hfiles & Hout & _);
    [done|done|done|done|by vm_compute|done|done|apply not_elem_of_empty| |].
  { intros r. by exists []. }
  exists w'. split; [done|]. split.
  - rewrite Hfiles. apply lookup_insert_eq.
  - rewrite Hout. by vm_compute.
Defined.

(** A run of [spec] without a key, a title and a body. *)
Lemma credential_checked_first_witness :
  run (spec_arguments None None None) (example_world None) =
  (1%Z,
   after_stderr_line (cross_mark ++ lit " Error: " ++ missing_key_message)
     (example_world None)).
Proof.
  apply (credential_checked_first (spec_arguments None None None)
           (example_world None)).
  by vm_compute.
Defined.

(** The short circuit, from the command line: the report [{}] has no
    failing entry, the success string is printed and no request is sent. *)
Example empty_report_run :
  run (test_analysis_arguments (Some (lit "report.json")))
    (example_world (Some example_key)) =
  (0%Z, with_stdout (no_failures_message ++ newline)
          (example_world (Some example_key))).
Proof. by vm_compute. Qed.

(** An unreadable report and a report that is not JSON, from the command
    line: both end in the handler. *)
Example missing_report_run :
  run (test_analysis_arguments (Some (lit "absent.json")))
    (example_world (Some example_key)) =
  (1%Z, after_stderr_line (diagnostic (OSError (lit "absent.json")))
          (example_world (Some example_key))).
Proof. by vm_compute. Qed.

Example malformed_report_run :
  run (test_analysis_arguments (Some (lit "spec.md")))
    (example_world (Some example_key)) =
  (1%Z, after_stderr_line (diagnostic JSONDecodeError)
          (example_world (Some example_key))).
Proof. by vm_compute. Qed.

(** ** Examples for the further properties *)


(** The result list [vitest_tests]: the passing entry is skipped, though
    its [assertionResults] is [None]; the two failing entries are
    recorded in their order. *)
Lemma vitest_failures_extracted_witness :
  extract_failures (VDict {[ lit "testResults" := VList vitest_tests ]}) =
  Ok [ {| file := VStr (lit "b.test.ts"); test := VStr (lit "Unknown");
          error := VStr (lit "Unknown error") |};
       {| file := VStr (lit "c.test.ts"); test := VStr (lit "adds");
          error := VStr (lit "expected 1") |} ].
Proof.
  refine (eq_trans (proj1 (vitest_failures_extracted
    {[ lit "testResults" := VList vitest_tests ]} vitest_tests _ _)) _);
    by vm_compute.
Defined.

(** A report with both keys. *)
Lemma result_list_takes_precedence_witness :
  extract_failures
    (VDict (<[lit "suites" := VList playwright_suites]>
              {[ lit "testResults" := VList [] ]})) = Ok [].
Proof.
  refine (eq_trans (result_list_takes_precedence
    {[ lit "testResults" := VList [] ]} (VList playwright_suites) _) _);
    [vm_compute; by eexists|by vm_compute].
Defined.

(** A readable failing entry, then the entry of a file that failed before
    any test ran: the record of the first is lost. *)
Lemma unreadable_entry_aborts_witness :
  extract_failures
    (VDict {[ lit "testResults" :=
                VList (vitest_tests ++ [collection_error_entry]) ]}) =
  Err IndexError.
Proof.
  destruct (unreadable_entry_aborts
    {[ lit "testResults" := VList (vitest_tests ++ collection_error_entry :: []) ]}
    vitest_tests [] collection_error_entry)
    as (e & Heq & _ & Hindex); [by vm_compute..|].
  rewrite Heq. f_equal. by eapply Hindex; [|vm_compute].
Defined.

Lemma successful_run_output_witness :
  stdout (run (pr_review_arguments (Some (lit "change.diff"))
                 (Some (lit "adds a line")) None)
            (review_world ok_service)).2 = lit "OK" ++ newline.
Proof.
  destruct (successful_run_output
    (pr_review_arguments (Some (lit "change.diff")) (Some (lit "adds a line")) None)
    (review_world ok_service)) as (result & Hresult & _ & Hout);
    [by vm_compute|].
  rewrite Hout. destruct Hresult as [[_ Hnone]|(r & rest & _ & Hreply)].
  - by vm_compute in Hnone.
  - by injection Hreply as <- _.
Defined.

(** A review with [--output out/review.md], which cannot be written. *)
Lemma unwritable_output_fails_witness :
  (run (pr_review_arguments (Some (lit "change.diff"))
          (Some (lit "adds a line")) (Some (lit "out/review.md")))
     (review_world ok_service)).1 = 1%Z.
Proof.
  apply unwritable_output_fails; [done|by vm_compute].
Defined.

Lemma test_analysis_requires_report_witness :
  run (test_analysis_arguments None) (review_world ok_service) =
  (1%Z, after_stderr_line test_analysis_usage (review_world ok_service)).
Proof. by apply test_analysis_requires_report; [|vm_compute|]. Defined.

(** A review with a diff and an empty description. *)
Lemma pr_review_requires_diff_and_description_witness :
  run (pr_review_arguments (Some (lit "change.diff")) (Some []) None)
    (review_world ok_service) =
  (1%Z, after_stderr_line pr_review_usage (review_world ok_service)).
Proof.
  by apply pr_review_requires_diff_and_description; [|vm_compute|right].
Defined.

(** A review of a diff that does not exist. *)
Lemma unreadable_input_reported_witness :
  run (pr_review_arguments (Some (lit "absent.diff")) (Some (lit "adds a line"))
         None) (review_world ok_service) =
  (1%Z, after_stderr_line (diagnostic (OSError (lit "absent.diff")))
          (review_world ok_service)).
Proof.
  by apply (unreadable_input_reported
    (pr_review_arguments (Some (lit "absent.diff")) (Some (lit "adds a line")) None)
    (review_world ok_service)); [vm_compute|..].
Defined.

(** An analysis of the diff, which is not JSON. *)
Lemma unusable_report_reported_witness :
  run (test_analysis_arguments (Some (lit "change.diff")))
    (review_world ok_service) =
  (1%Z, after_stderr_line (diagnostic JSONDecodeError) (review_world ok_service)).
Proof.
  by apply (unusable_report_reported
    (test_analysis_arguments (Some (lit "change.diff")))
    (review_world ok_service) (lit "+ new line")); [|vm_compute|..].
Defined.

(** An analysis of the report [{}]. *)
Lemma test_analysis_short_circuit_witness :
  run (test_analysis_arguments (Some (lit "report.json")))
    (review_world failing_service) =
  (0%Z, with_stdout (no_failures_message ++ newline)
          (review_world failing_service)).
Proof.
  by apply (test_analysis_short_circuit
    (test_analysis_arguments (Some (lit "report.json")))
    (review_world failing_service) (lit "{}") (VDict ∅)); [|vm_compute|..].
Defined.

Lemma pr_review_run_witness :
  run (pr_review_arguments (Some (lit "change.diff")) (Some (lit "adds a line"))
         None) (review_world ok_service) =
  (0%Z,
   with_stdout (lit "OK" ++ newline)
     (sent (user_request (environment_assistant (review_world ok_service)) 2048
              (review_pr_prompt (lit "+ new line") (lit "adds a line")))
        (review_world ok_service))).
Proof.
  by rewrite (pr_review_run
    (pr_review_arguments (Some (lit "change.diff")) (Some (lit "adds a line")) None)
    (review_world ok_service) (lit "+ new line"));
    [vm_compute|done|vm_compute|..].
Defined.

(** A specification without a context path: the context is empty. *)
Lemma spec_run_witness :
  run (spec_arguments (Some (lit "title")) (Some (lit "body")) None)
    (review_world ok_service) =
  (0%Z,
   with_stdout (lit "OK" ++ newline)
     (sent (user_request (environment_assistant (review_world ok_service)) 4096
              (generate_spec_prompt (lit "title") (lit "body") []))
        (review_world ok_service))).
Proof.
  by rewrite (spec_run
    (spec_arguments (Some (lit "title")) (Some (lit "body")) None)
    (review_world ok_service) []);
    [vm_compute|done|vm_compute|..].
Defined.

(** The two failing specs of [playwright_report], against a service that
    answers without a content block. *)
Lemma analyze_with_failures_witness :
  (analyze_test_failures (environment_assistant (review_world mute_service))
     (VDict playwright_report) (review_world mute_service)).1 =
  Raises IndexError.
Proof.
  by rewrite (proj1 (analyze_with_failures _ (VDict playwright_report) _
    {| file := VStr (lit "login.spec.ts"); test := VStr (lit "logs in");
       error := VStr (lit "Unknown error") |}
    [ {| file := VStr (lit "login.spec.ts"); test := VStr (lit "logs out");
         error := VStr (lit "timeout") |} ] ltac:(by vm_compute))).
Defined.

(** A review against a service that answers without a content block. *)
Lemma reply_handling_witness :
  (run (pr_review_arguments (Some (lit "change.diff")) (Some (lit "adds a line"))
          None) (review_world mute_service)).1 = 1%Z.
Proof.
  destruct (reply_handling
    (pr_review_arguments (Some (lit "change.diff")) (Some (lit "adds a line")) None)
    (review_world mute_service)) as (r & _ & Hrun); [by vm_compute|].
  cbn [remote review_world mute_service] in Hrun. by rewrite Hrun.
Defined.

(** A review written to [change.diff] against a service whose reply ends
    in the lone surrogate U+D800: the file is left empty. *)
Lemma unencodable_result_empties_output_witness :
  (run (pr_review_arguments (Some (lit "change.diff")) (Some (lit "adds a line"))
          (Some (lit "change.diff")))
     (review_world surrogate_service)).1 = 1%Z ∧
  files (run (pr_review_arguments (Some (lit "change.diff"))
                (Some (lit "adds a line")) (Some (lit "change.diff")))
           (review_world surrogate_service)).2 !! lit "change.diff" = Some [].
Proof.
  destruct (unencodable_result_empties_output
    (pr_review_arguments (Some (lit "change.diff")) (Some (lit "adds a line"))
       (Some (lit "change.diff")))
    (review_world surrogate_service)
    (sent (user_request (environment_assistant (review_world surrogate_service))
             2048 (review_pr_prompt (lit "+ new line") (lit "adds a line")))
       (review_world surrogate_service))
    (lit "ab" ++ [55296%N])) as [-> _]; by vm_compute.
Defined.

(** The empty string as the argument, a key in the environment. *)
Lemma constructor_key_precedence_witness :
  ClaudeAssistant_init (Some []) (review_world ok_service) =
  (Returns {| api_key := example_key; model := lit "claude-3-5-sonnet-20241022" |},
   review_world ok_service).
Proof.
  refine (eq_trans (proj2 (constructor_key_precedence (Some [])
    (review_world ok_service)) _ _) _); by vm_compute.
Defined.
